(** * Film Look Creator for OBS: the film-look pixel shader

    A shallow embedding of the HLSL pixel shader of the film-look filter,
    in its two variants:
    - [mainImage], the effect text embedded in [src/film-look-filter.cpp]
      (the one the plugin compiles and runs), with the border sampler;
    - [pixel_shader], the effect file [data/film_look.effect], with the
      clamp sampler and [pixel_size = uv_size];
    and of [data/passthrough.effect].

    Numbers.  An HLSL [float] is modelled as a real number: arithmetic is
    exact, there is neither rounding nor NaN nor infinity.  A division
    written in the source ([/], [/=]) whose divisor is zero has no value in
    this model and is reported as [DivByZero].  An HLSL [int] is a 32-bit
    two's complement integer, modelled as a [Z] with its wrap-around written
    out.  The two nested [for] loops run on fuel: [OutOfFuel] stands for a
    scan that has not finished within the given number of iterations. *)

From Stdlib Require Import String.
From Stdlib Require Import Reals Lra Lia ZArith List Bool.
Import ListNotations.

Open Scope R_scope.

(** ** Outcomes of an evaluation *)

Inductive result (A : Type) : Type :=
| Ok (v : A)
| DivByZero
| OutOfFuel.

Arguments Ok {A} v.
Arguments DivByZero {A}.
Arguments OutOfFuel {A}.

Definition bind {A B : Type} (m : result A) (k : A -> result B) : result B :=
  match m with
  | Ok v => k v
  | DivByZero => DivByZero
  | OutOfFuel => OutOfFuel
  end.

Notation "x <- m ;; k" := (bind m (fun x => k))
  (at level 61, m at next level, right associativity).

(** ** Vectors *)

Record float2 : Type := mk2 { vx : R; vy : R }.
Record float3 : Type := mk3 { cr : R; cg : R; cb : R }.
(** [float4(rgb, a)]: the shader only reads the swizzles [.rgb] and [.a]. *)
Record float4 : Type := mk4 { rgb : float3; alpha : R }.

Definition zero3 : float3 := mk3 0 0 0.

(** [a + b] on [float2]. *)
Definition add2 (a b : float2) : float2 := mk2 (vx a + vx b) (vy a + vy b).
(** [a * b] on [float2], componentwise. *)
Definition mul2 (a b : float2) : float2 := mk2 (vx a * vx b) (vy a * vy b).
(** [v * s] and [v + s] with the scalar [s] broadcast. *)
Definition scale2 (v : float2) (s : R) : float2 := mk2 (vx v * s) (vy v * s).
Definition adds2 (v : float2) (s : R) : float2 := mk2 (vx v + s) (vy v + s).
Definition dot2 (a b : float2) : R := vx a * vx b + vy a * vy b.

Definition add3 (a b : float3) : float3 :=
  mk3 (cr a + cr b) (cg a + cg b) (cb a + cb b).
Definition mul3 (a b : float3) : float3 :=
  mk3 (cr a * cr b) (cg a * cg b) (cb a * cb b).
Definition scale3 (v : float3) (s : R) : float3 :=
  mk3 (cr v * s) (cg v * s) (cb v * s).
Definition adds3 (v : float3) (s : R) : float3 :=
  mk3 (cr v + s) (cg v + s) (cb v + s).
(** [s - v] with the scalar on the left, as in [1.0 - base]. *)
Definition rsub3 (s : R) (v : float3) : float3 :=
  mk3 (s - cr v) (s - cg v) (s - cb v).
Definition dot3 (a b : float3) : R :=
  cr a * cr b + cg a * cg b + cb a * cb b.

(** The division operator of the source: no value on a zero divisor. *)
Definition fdiv (n d : R) : result R :=
  if Req_dec_T d 0 then DivByZero else Ok (n / d).

(** [1.0 / uv_size]: scalar by vector, componentwise. *)
Definition rdiv2 (s : R) (v : float2) : result float2 :=
  x <- fdiv s (vx v) ;;
  y <- fdiv s (vy v) ;;
  Ok (mk2 x y).

(** [accum /= count]: vector by scalar. *)
Definition div3 (v : float3) (d : R) : result float3 :=
  r <- fdiv (cr v) d ;;
  g <- fdiv (cg v) d ;;
  b <- fdiv (cb v) d ;;
  Ok (mk3 r g b).

(** ** HLSL intrinsics

    The intrinsics are the language's, not the repository's; they are
    given their mathematical definitions. *)

(** [a > b] on floats. *)
Definition gtb (a b : R) : bool := if Rlt_dec b a then true else false.

(** [clamp(x, lo, hi) = min(max(x, lo), hi)]. *)
Definition clamp (x lo hi : R) : R := Rmin (Rmax x lo) hi.

Definition clamp3 (v : float3) (lo hi : R) : float3 :=
  mk3 (clamp (cr v) lo hi) (clamp (cg v) lo hi) (clamp (cb v) lo hi).

(** [frac(x) = x - floor(x)].  Over the reals the value is below 1; in
    binary32 the subtraction can round up to 1.0 for a tiny negative [x]. *)
Definition frac (x : R) : R := frac_part x.

(** [lerp(a, b, s) = a + s * (b - a)]. *)
Definition lerp (a b s : R) : R := a + s * (b - a).

Definition lerp3 (a b : float3) (s : R) : float3 :=
  mk3 (lerp (cr a) (cr b) s) (lerp (cg a) (cg b) s) (lerp (cb a) (cb b) s).

(** [smoothstep(edge0, edge1, x)]: the cubic Hermite curve of the
    saturated ratio [(x - edge0) / (edge1 - edge0)].  Nothing in the formula
    asks for [edge0 < edge1].  For [edge0 = edge1] the ratio has no real
    value; the model then takes Rocq's [_ / 0 = 0]. *)
Definition smoothstep (edge0 edge1 x : R) : R :=
  let t := clamp ((x - edge0) / (edge1 - edge0)) 0 1 in
  t * t * (3 - 2 * t).

(** [pow(x, y)]: [x ^ y] for a positive base and [0] for base [0] with a
    positive exponent.  HLSL gives NaN, an infinity or a hardware-dependent
    value for a negative base and for base [0] with a non-positive exponent;
    the model has no such value and returns [0] there. *)
Definition pow (x y : R) : R := if Rlt_dec 0 x then Rpower x y else 0.

Definition pow3 (v e : float3) : float3 :=
  mk3 (pow (cr v) (cr e)) (pow (cg v) (cg e)) (pow (cb v) (cb e)).

(** *** 32-bit integers *)

Definition int_min : Z := (- 2147483648)%Z.
Definition int_max : Z := 2147483647%Z.

Definition wrap (z : Z) : Z := ((z + 2 ^ 31) mod 2 ^ 32 - 2 ^ 31)%Z.

(** [x++] *)
Definition incr (x : Z) : Z := wrap (x + 1).
(** unary [-x] *)
Definition ineg (x : Z) : Z := wrap (- x).
(** [abs(x)] on [int]: [abs(int_min)] wraps to [int_min]. *)
Definition iabs (x : Z) : Z := wrap (Z.abs x).
(** [max(a, b)] on [int]. *)
Definition imax (a b : Z) : Z := Z.max a b.

(** ** Textures and samplers *)

Inductive filter_mode : Type := Linear.
Inductive address_mode : Type := Border | Clamp.

Record sampler_state : Type := mkSampler {
  Filter : filter_mode;
  AddressU : address_mode;
  AddressV : address_mode;
  BorderColor : float4
}.

(** A texture gives a color at every normalized coordinate of [[0,1]^2];
    the linear filter between texels is part of that function. *)
Definition texture2d : Type := R -> R -> float4.

Definition transparent_black : float4 := mk4 zero3 0.

(** The coordinate a sampler reads on one axis: [Clamp] moves it to the
    nearest edge, [Border] has no texel outside [[0,1]]. *)
Definition address (m : address_mode) (t : R) : option R :=
  match m with
  | Clamp => Some (clamp t 0 1)
  | Border =>
      if Rle_dec 0 t then (if Rle_dec t 1 then Some t else None) else None
  end.

(** [image.Sample(s, uv)] *)
Definition Sample (s : sampler_state) (image : texture2d) (uv : float2)
  : float4 :=
  match address (AddressU s) (vx uv), address (AddressV s) (vy uv) with
  | Some u, Some v => image u v
  | _, _ => BorderColor s
  end.

(** [src/film-look-filter.cpp], lines 49-54. *)
Definition textureSampler : sampler_state :=
  mkSampler Linear Border Border transparent_black.

(** [data/film_look.effect], lines 30-34: clamp addressing, no border color
    declared (the border color of a sampler defaults to zero). *)
Definition effect_textureSampler : sampler_state :=
  mkSampler Linear Clamp Clamp transparent_black.

(** [data/passthrough.effect], lines 6-11. *)
Definition passthrough_textureSampler : sampler_state :=
  mkSampler Linear Border Border transparent_black.

(** [data/passthrough.effect], [mainImage]. *)
Definition passthrough_mainImage (image : texture2d) (uv : float2) : float4 :=
  Sample passthrough_textureSampler image uv.

(** ** Uniforms *)

Record uniforms : Type := mkUniforms {
  elapsed_time : R;
  uv_size : float2;
  contrast : R;
  teal_amount : R;
  orange_amount : R;
  bloom_intensity : R;
  bloom_threshold : R;
  bloom_radius : Z;
  halation_intensity : R;
  halation_threshold : R;
  halation_radius : Z;
  secondary_glow_intensity : R;
  secondary_glow_threshold : R;
  secondary_glow_radius : Z;
  grain_intensity : R;
  shake_intensity : R;
  shake_speed : R
}.

(** ** Helper functions of the effect *)

Definition random (st : float2) : R :=
  frac (sin (dot2 st (mk2 12.9898 78.233)) * 43758.5453123).

Definition BlendScreen (base blend : float3) : float3 :=
  rsub3 1.0 (mul3 (rsub3 1.0 base) (rsub3 1.0 blend)).

(** ** The pixel shader, part by part *)

(** *** Part 0: camera shake *)

Definition shake_offset (u : uniforms) : float2 :=
  if gtb (shake_intensity u) 0.0 then
    let time := elapsed_time u * shake_speed u in
    let shake_x := (sin (time * 1.3 + 0.5) + sin (time * 2.7 + 1.2)) * 0.5 in
    let shake_y := (cos (time * 1.7 - 0.8) + cos (time * 3.1 - 0.3)) * 0.5 in
    scale2 (mk2 shake_x shake_y) (shake_intensity u)
  else mk2 0.0 0.0.

Definition shaken_uv (u : uniforms) (uv : float2) : float2 :=
  add2 uv (shake_offset u).

(** *** Part 1: color grading *)

Definition luma_weights : float3 := mk3 0.299 0.587 0.114.
Definition teal_color : float3 := mk3 0.7 0.85 1.0.
Definition orange_color : float3 := mk3 1.0 0.9 0.7.

Definition color_grade (u : uniforms) (original_rgb : float3) : float3 :=
  let graded_color :=
    pow3 original_rgb (mk3 (contrast u) (contrast u) (contrast u)) in
  let luma := dot3 graded_color luma_weights in
  let graded_color :=
    lerp3 graded_color teal_color (smoothstep 0.5 1.0 luma * teal_amount u) in
  lerp3 graded_color orange_color (smoothstep 0.4 0.0 luma * orange_amount u).

(** *** Part 2: bloom, halation and secondary glow in one scan *)

Record glow_state : Type := mkGlow {
  bloom_accum : float3;
  bloom_sample_count : R;
  halation_accum : float3;
  halation_sample_count : R;
  secondary_glow_accum : float3;
  secondary_glow_sample_count : R
}.

Definition glow_init : glow_state := mkGlow zero3 0.0 zero3 0.0 zero3 0.0.

Definition halation_tint : float3 := mk3 1.0 0.2 0.1.
Definition sg_tint : float3 := mk3 0.6 0.8 1.0.

(** [for (int i = lo; i <= hi; i++) body]: one unit of fuel per test of the
    loop condition. *)
Fixpoint for_loop {S : Type} (fuel : nat) (i hi : Z)
  (body : Z -> S -> result S) (s : S) : result S :=
  match fuel with
  | O => OutOfFuel
  | Datatypes.S fuel' =>
      if (i <=? hi)%Z then
        s' <- body i s ;;
        for_loop fuel' (incr i) hi body s'
      else Ok s
  end.

(** The coordinate sampled at the offset [(x, y)]. *)
Definition sample_uv (shaken pixel_size : float2) (x y : Z) : float2 :=
  let offset := mk2 (IZR x) (IZR y) in
  add2 shaken (mul2 offset pixel_size).

(** The body of the inner loop at the offset [(x, y)]. *)
Definition scan_body (s : sampler_state) (image : texture2d) (u : uniforms)
  (shaken pixel_size : float2) (x y : Z) (st : glow_state) : glow_state :=
  let sample_color := rgb (Sample s image (sample_uv shaken pixel_size x y)) in
  let sample_luma := dot3 sample_color luma_weights in
  let st :=
    if gtb (bloom_intensity u) 0.0
       && (iabs x <=? bloom_radius u)%Z && (iabs y <=? bloom_radius u)%Z
    then
      let bright_factor := smoothstep (bloom_threshold u) 1.0 sample_luma in
      mkGlow (add3 (bloom_accum st) (scale3 sample_color bright_factor))
             (bloom_sample_count st + 1.0)
             (halation_accum st) (halation_sample_count st)
             (secondary_glow_accum st) (secondary_glow_sample_count st)
    else st in
  let st :=
    if gtb (halation_intensity u) 0.0
       && (iabs x <=? halation_radius u)%Z
       && (iabs y <=? halation_radius u)%Z
    then
      let halation_bright_factor :=
        smoothstep (halation_threshold u) 1.0 sample_luma in
      let tinted_color := mul3 sample_color halation_tint in
      mkGlow (bloom_accum st) (bloom_sample_count st)
             (add3 (halation_accum st)
                   (scale3 tinted_color halation_bright_factor))
             (halation_sample_count st + 1.0)
             (secondary_glow_accum st) (secondary_glow_sample_count st)
    else st in
  if gtb (secondary_glow_intensity u) 0.0
     && (iabs x <=? secondary_glow_radius u)%Z
     && (iabs y <=? secondary_glow_radius u)%Z
  then
    let sg_bright_factor :=
      smoothstep (secondary_glow_threshold u) 1.0 sample_luma in
    mkGlow (bloom_accum st) (bloom_sample_count st)
           (halation_accum st) (halation_sample_count st)
           (add3 (secondary_glow_accum st)
                 (scale3 (mul3 sample_color sg_tint) sg_bright_factor))
           (secondary_glow_sample_count st + 1.0)
  else st.

Definition max_radius_for_loop (u : uniforms) : Z :=
  let max_radius_for_loop := imax (bloom_radius u) (halation_radius u) in
  imax max_radius_for_loop (secondary_glow_radius u).

(** The two nested loops over [x] and [y]. *)
Definition glow_scan (fuel : nat) (s : sampler_state) (image : texture2d)
  (u : uniforms) (shaken pixel_size : float2) : result glow_state :=
  let m := max_radius_for_loop u in
  for_loop fuel (ineg m) m
    (fun x st =>
       for_loop fuel (ineg m) m
         (fun y st' => Ok (scan_body s image u shaken pixel_size x y st'))
         st)
    glow_init.

(** [if (count > 0.0) { accum /= count; }] *)
Definition normalize (accum : float3) (count : R) : result float3 :=
  if gtb count 0.0 then div3 accum count else Ok accum.

(** *** Part 3: combine *)

Definition add_bloom (u : uniforms) (bloom : float3) (final_color : float3)
  : float3 :=
  if gtb (bloom_intensity u) 0.0
  then add3 final_color (scale3 bloom (bloom_intensity u))
  else final_color.

Definition screen_halation (u : uniforms) (halation : float3)
  (final_color : float3) : float3 :=
  if gtb (halation_intensity u) 0.0
  then BlendScreen final_color (scale3 halation (halation_intensity u))
  else final_color.

Definition screen_secondary_glow (u : uniforms) (glow : float3)
  (final_color : float3) : float3 :=
  if gtb (secondary_glow_intensity u) 0.0
  then BlendScreen final_color (scale3 glow (secondary_glow_intensity u))
  else final_color.

Definition add_grain (u : uniforms) (shaken : float2) (final_color : float3)
  : float3 :=
  let grain_seed_uv := adds2 shaken (frac (elapsed_time u)) in
  let grain := (random grain_seed_uv - 0.5) * 2.0 in
  adds3 final_color (grain * grain_intensity u).

(** *** The whole shader

    The two variants share every line but the sampler declaration and the
    line that sets [pixel_size]; [film_look] is that shared text, from the
    camera shake to the returned color. *)
Definition film_look (fuel : nat) (s : sampler_state)
  (pixel_size_of : float2 -> result float2)
  (image : texture2d) (u : uniforms) (uv : float2) : result float4 :=
  let shaken := shaken_uv u uv in
  let original_color := Sample s image shaken in
  let graded_color := color_grade u (rgb original_color) in
  pixel_size <- pixel_size_of (uv_size u) ;;
  st <- glow_scan fuel s image u shaken pixel_size ;;
  bloom <- normalize (bloom_accum st) (bloom_sample_count st) ;;
  halation <- normalize (halation_accum st) (halation_sample_count st) ;;
  glow <- normalize (secondary_glow_accum st)
                    (secondary_glow_sample_count st) ;;
  let final_color := graded_color in
  let final_color := add_bloom u bloom final_color in
  let final_color := screen_halation u halation final_color in
  let final_color := screen_secondary_glow u glow final_color in
  let final_color := add_grain u shaken final_color in
  Ok (mk4 (clamp3 final_color 0.0 1.0) (alpha original_color)).

(** [src/film-look-filter.cpp], [mainImage]:
    [float2 pixel_size = 1.0 / uv_size;] with the border sampler. *)
Definition mainImage (fuel : nat) (image : texture2d) (u : uniforms)
  (uv : float2) : result float4 :=
  film_look fuel textureSampler (fun size => rdiv2 1.0 size) image u uv.

(** [data/film_look.effect], [pixel_shader]:
    [float2 pixel_size = uv_size;] with the clamp sampler. *)
Definition pixel_shader (fuel : nat) (image : texture2d) (u : uniforms)
  (uv : float2) : result float4 :=
  film_look fuel effect_textureSampler (fun size => Ok size) image u uv.

(** ** The three effects, uniformly

    The shader writes bloom, halation and secondary glow out one after the
    other; the accessors below name the uniforms, the tint and the part of
    the scan state of each. *)

Inductive effect : Type := Bloom | Halation | SecondaryGlow.

Definition intensity (u : uniforms) (e : effect) : R :=
  match e with
  | Bloom => bloom_intensity u
  | Halation => halation_intensity u
  | SecondaryGlow => secondary_glow_intensity u
  end.

Definition threshold (u : uniforms) (e : effect) : R :=
  match e with
  | Bloom => bloom_threshold u
  | Halation => halation_threshold u
  | SecondaryGlow => secondary_glow_threshold u
  end.

Definition radius (u : uniforms) (e : effect) : Z :=
  match e with
  | Bloom => bloom_radius u
  | Halation => halation_radius u
  | SecondaryGlow => secondary_glow_radius u
  end.

Definition accum (e : effect) (st : glow_state) : float3 :=
  match e with
  | Bloom => bloom_accum st
  | Halation => halation_accum st
  | SecondaryGlow => secondary_glow_accum st
  end.

Definition sample_count (e : effect) (st : glow_state) : R :=
  match e with
  | Bloom => bloom_sample_count st
  | Halation => halation_sample_count st
  | SecondaryGlow => secondary_glow_sample_count st
  end.

(** The sample color as the effect accumulates it: bloom takes it as it
    is, halation and secondary glow multiply it by their tint. *)
Definition tinted (e : effect) (c : float3) : float3 :=
  match e with
  | Bloom => c
  | Halation => mul3 c halation_tint
  | SecondaryGlow => mul3 c sg_tint
  end.

(** The step of the compositor that belongs to the effect. *)
Definition composite (e : effect) (u : uniforms) (mean final_color : float3)
  : float3 :=
  match e with
  | Bloom => add_bloom u mean final_color
  | Halation => screen_halation u mean final_color
  | SecondaryGlow => screen_secondary_glow u mean final_color
  end.

(** The condition under which the effect accumulates the offset [(x, y)]. *)
Definition gate (u : uniforms) (e : effect) (x y : Z) : bool :=
  gtb (intensity u e) 0.0
  && (iabs x <=? radius u e)%Z && (iabs y <=? radius u e)%Z.

(** What the effect adds to its accumulator at the offset [(x, y)]. *)
Definition contribution (e : effect) (s : sampler_state) (image : texture2d)
  (u : uniforms) (shaken pixel_size : float2) (x y : Z) : float3 :=
  let sample_color := rgb (Sample s image (sample_uv shaken pixel_size x y)) in
  let sample_luma := dot3 sample_color luma_weights in
  scale3 (tinted e sample_color) (smoothstep (threshold u e) 1.0 sample_luma).

(** ** Loops as folds over the scanned offsets *)

(** [lo, lo + 1, ..., lo + n - 1] *)
Fixpoint zseq (lo : Z) (n : nat) : list Z :=
  match n with
  | O => []
  | S n' => lo :: zseq (lo + 1) n'
  end.

(** The offsets [-r, ..., r] of one axis (none when [r < 0]). *)
Definition offsets (r : Z) : list Z := zseq (- r) (Z.to_nat (2 * r + 1)).

(** The square of offsets of radius [r], in scan order. *)
Definition square (r : Z) : list (Z * Z) := list_prod (offsets r) (offsets r).

Fixpoint foldM {S : Type} (body : Z -> S -> result S) (l : list Z) (s : S)
  : result S :=
  match l with
  | [] => Ok s
  | i :: l' => s' <- body i s ;; foldM body l' s'
  end.

(** The scan over given lists of [x] and [y] offsets. *)
Definition scan_list (s : sampler_state) (image : texture2d) (u : uniforms)
  (shaken pixel_size : float2) (xs ys : list Z) (st : glow_state)
  : glow_state :=
  fold_left
    (fun st x =>
       fold_left (fun st' y => scan_body s image u shaken pixel_size x y st')
                 ys st)
    xs st.

(** The sum of the effect's contributions over a list of offsets. *)
Definition sum_contributions (e : effect) (s : sampler_state)
  (image : texture2d) (u : uniforms) (shaken pixel_size : float2)
  (l : list (Z * Z)) : float3 :=
  fold_left
    (fun acc xy =>
       add3 acc (contribution e s image u shaken pixel_size (fst xy) (snd xy)))
    l zero3.

(** The radii for which the loop counter does not wrap around. *)
Definition loop_in_range (u : uniforms) : Prop :=
  (int_min < max_radius_for_loop u < int_max)%Z.

(** Fuel for the [2R + 1] iterations of a loop and its last test. *)
Definition enough_fuel (fuel : nat) (u : uniforms) : Prop :=
  (Z.to_nat (2 * max_radius_for_loop u + 1) < fuel)%nat.

(** Both components of [uv_size] are non-zero. *)
Definition frame_size_ok (u : uniforms) : Prop :=
  vx (uv_size u) <> 0 /\ vy (uv_size u) <> 0.

(** The fold the scan performs on one component of its state: [upd] at the
    offsets the effect's gate lets through. *)
Definition gated_fold {A : Type} (upd : A -> Z -> Z -> A) (u : uniforms)
  (e : effect) (xs ys : list Z) (a : A) : A :=
  fold_left
    (fun a x =>
       fold_left (fun a' y => if gate u e x y then upd a' x y else a') ys a)
    xs a.

(** ** Closed forms of a finished evaluation *)

(** The value [normalize] leaves in the accumulator. *)
Definition mean_of (acc : float3) (count : R) : float3 :=
  if gtb count 0.0
  then mk3 (cr acc / count) (cg acc / count) (cb acc / count)
  else acc.

(** The state a finished scan ends in. *)
Definition scan_result (s : sampler_state) (image : texture2d) (u : uniforms)
  (shaken pixel_size : float2) : glow_state :=
  scan_list s image u shaken pixel_size
    (offsets (max_radius_for_loop u)) (offsets (max_radius_for_loop u))
    glow_init.

(** The color before the final clamp, given the pixel size. *)
Definition final_color_of (s : sampler_state) (image : texture2d)
  (u : uniforms) (uv pixel_size : float2) : float3 :=
  let shaken := shaken_uv u uv in
  let st := scan_result s image u shaken pixel_size in
  add_grain u shaken
    (screen_secondary_glow u
       (mean_of (secondary_glow_accum st) (secondary_glow_sample_count st))
       (screen_halation u
          (mean_of (halation_accum st) (halation_sample_count st))
          (add_bloom u
             (mean_of (bloom_accum st) (bloom_sample_count st))
             (color_grade u (rgb (Sample s image shaken)))))).

(** The pixel a finished evaluation returns, given the pixel size. *)
Definition shade (s : sampler_state) (image : texture2d) (u : uniforms)
  (uv pixel_size : float2) : float4 :=
  mk4 (clamp3 (final_color_of s image u uv pixel_size) 0.0 1.0)
      (alpha (Sample s image (shaken_uv u uv))).

(** [1.0 / uv_size] when no component of [uv_size] is zero. *)
Definition reciprocal_size (u : uniforms) : float2 :=
  mk2 (1.0 / vx (uv_size u)) (1.0 / vy (uv_size u)).

(** ** The statements' vocabulary *)

(** The luma [0.299 R + 0.587 G + 0.114 B] of a color. *)
Definition luma_of (c : float3) : R :=
  0.299 * cr c + 0.587 * cg c + 0.114 * cb c.

(** The weight of the teal blend at a given luma. *)
Definition teal_weight (u : uniforms) (luma : R) : R :=
  smoothstep 0.5 1.0 luma * teal_amount u.

(** The weight of the orange blend at a given luma. *)
Definition orange_weight (u : uniforms) (luma : R) : R :=
  smoothstep 0.4 0.0 luma * orange_amount u.

(** The quotient [accum / count] of a normalisation that divides. *)
Definition quotient3 (acc : float3) (count : R) : float3 :=
  mk3 (cr acc / count) (cg acc / count) (cb acc / count).

(** A coordinate outside [[0,1]^2] in either axis. *)
Definition outside_frame (uv : float2) : Prop :=
  vx uv < 0 \/ 1 < vx uv \/ vy uv < 0 \/ 1 < vy uv.

(** A coordinate within [[0,1]^2]. *)
Definition in_frame (uv : float2) : Prop :=
  0 <= vx uv <= 1 /\ 0 <= vy uv <= 1.

(** Every color channel of a color lies in [[0,1]]. *)
Definition unit_color (c : float3) : Prop :=
  0 <= cr c <= 1 /\ 0 <= cg c <= 1 /\ 0 <= cb c <= 1.

(** Every color channel of the image lies in [[0,1]]. *)
Definition unit_image (image : texture2d) : Prop :=
  forall a b, unit_color (rgb (image a b)).

(** Every sample of the effect's own square around the shaken coordinate
    has the color [c]. *)
Definition uniform_around (s : sampler_state) (image : texture2d)
  (shaken pixel_size : float2) (r : Z) (c : float3) : Prop :=
  forall x y, (Z.abs x <= r)%Z -> (Z.abs y <= r)%Z ->
    rgb (Sample s image (sample_uv shaken pixel_size x y)) = c.

(** The configuration in which every stage is switched off. *)
Definition noop_config (u : uniforms) : Prop :=
  teal_amount u = 0 /\ orange_amount u = 0 /\
  bloom_intensity u = 0 /\ halation_intensity u = 0 /\
  secondary_glow_intensity u = 0 /\
  grain_intensity u = 0 /\ shake_intensity u = 0 /\
  contrast u = 1.

(** ** Uniforms with one field replaced *)

(** The uniforms with [shake_intensity] replaced. *)
Definition set_shake_intensity (u : uniforms) (v : R) : uniforms :=
  mkUniforms (elapsed_time u) (uv_size u)
    (contrast u) (teal_amount u) (orange_amount u)
    (bloom_intensity u) (bloom_threshold u) (bloom_radius u)
    (halation_intensity u) (halation_threshold u) (halation_radius u)
    (secondary_glow_intensity u) (secondary_glow_threshold u)
    (secondary_glow_radius u)
    (grain_intensity u)
    v (shake_speed u).

(** The uniforms with [uv_size] replaced. *)
Definition set_uv_size (u : uniforms) (size : float2) : uniforms :=
  mkUniforms (elapsed_time u) size
    (contrast u) (teal_amount u) (orange_amount u)
    (bloom_intensity u) (bloom_threshold u) (bloom_radius u)
    (halation_intensity u) (halation_threshold u) (halation_radius u)
    (secondary_glow_intensity u) (secondary_glow_threshold u)
    (secondary_glow_radius u)
    (grain_intensity u)
    (shake_intensity u) (shake_speed u).

(** ** Concrete inputs *)

(** The settings of [film_look_defaults], on a 1920 x 1080 frame at the
    first tick. *)
Definition default_uniforms : uniforms :=
  mkUniforms 0 (mk2 1920 1080)
    1.2 0.2 0.15
    0.5 0.8 2
    0.4 0.95 4
    0.3 0.75 3
    0.04
    0.002 5.0.

(** The default settings with bloom switched off. *)
Definition bloom_off : uniforms :=
  mkUniforms 0 (mk2 1920 1080)
    1.2 0.2 0.15
    0 0.8 2
    0.4 0.95 4
    0.3 0.75 3
    0.04
    0.002 5.0.

(** The no-op settings on a 1920 x 1080 frame, with the default radii. *)
Definition noop_uniforms (time : R) : uniforms :=
  mkUniforms time (mk2 1920 1080)
    1 0 0
    0 0.8 2
    0 0.95 4
    0 0.75 3
    0
    0 5.0.

(** Bloom alone, at intensity 1 and threshold 0 with the given radius, on a
    frame of the given size: contrast 1, no split-tone, no halation, no
    secondary glow, no grain, no shake. *)
Definition bloom_only (r : Z) (size : float2) : uniforms :=
  mkUniforms 0 size
    1 0 0
    1 0 r
    0 0 0
    0 0 0
    0
    0 0.

(** The center of the frame. *)
Definition center : float2 := mk2 0.5 0.5.

(** A point left of the frame. *)
Definition left_of_frame : float2 := mk2 (-0.1) 0.5.

(** An opaque white image. *)
Definition opaque_white : texture2d := fun _ _ => mk4 (mk3 1 1 1) 1.

(** A black image, opaque in its left half and transparent in its right
    half. *)
Definition half_opaque : texture2d :=
  fun u _ => mk4 zero3 (if Rle_dec u 0.5 then 1 else 0).

Definition gray : float3 := mk3 0.5 0.5 0.5.

(** An opaque image, mid-gray in the vertical band [0.2 <= u <= 0.8] and
    black beside it. *)
Definition gray_band : texture2d :=
  fun u _ =>
    if Rle_dec 0.2 u
    then (if Rle_dec u 0.8 then mk4 gray 1 else mk4 zero3 1)
    else mk4 zero3 1.

(** ** Uniforms of one effect replaced, and the clock moved *)

(** The uniforms with [elapsed_time] replaced. *)
Definition set_elapsed_time (u : uniforms) (t : R) : uniforms :=
  mkUniforms t (uv_size u)
    (contrast u) (teal_amount u) (orange_amount u)
    (bloom_intensity u) (bloom_threshold u) (bloom_radius u)
    (halation_intensity u) (halation_threshold u) (halation_radius u)
    (secondary_glow_intensity u) (secondary_glow_threshold u)
    (secondary_glow_radius u)
    (grain_intensity u)
    (shake_intensity u) (shake_speed u).

(** The uniforms with the threshold and the radius of one effect
    replaced. *)
Definition set_threshold_radius (e : effect) (u : uniforms) (t : R) (r : Z)
  : uniforms :=
  match e with
  | Bloom =>
      mkUniforms (elapsed_time u) (uv_size u)
        (contrast u) (teal_amount u) (orange_amount u)
        (bloom_intensity u) t r
        (halation_intensity u) (halation_threshold u) (halation_radius u)
        (secondary_glow_intensity u) (secondary_glow_threshold u)
        (secondary_glow_radius u)
        (grain_intensity u) (shake_intensity u) (shake_speed u)
  | Halation =>
      mkUniforms (elapsed_time u) (uv_size u)
        (contrast u) (teal_amount u) (orange_amount u)
        (bloom_intensity u) (bloom_threshold u) (bloom_radius u)
        (halation_intensity u) t r
        (secondary_glow_intensity u) (secondary_glow_threshold u)
        (secondary_glow_radius u)
        (grain_intensity u) (shake_intensity u) (shake_speed u)
  | SecondaryGlow =>
      mkUniforms (elapsed_time u) (uv_size u)
        (contrast u) (teal_amount u) (orange_amount u)
        (bloom_intensity u) (bloom_threshold u) (bloom_radius u)
        (halation_intensity u) (halation_threshold u) (halation_radius u)
        (secondary_glow_intensity u) t r
        (grain_intensity u) (shake_intensity u) (shake_speed u)
  end.

(** The offsets of a list whose sample coordinate lies within the frame. *)
Definition in_frameb (uv : float2) : bool :=
  if Rle_dec 0 (vx uv) then
    if Rle_dec (vx uv) 1 then
      if Rle_dec 0 (vy uv) then
        if Rle_dec (vy uv) 1 then true else false
      else false
    else false
  else false.

Definition samples_in_frame (shaken pixel_size : float2) (l : list (Z * Z))
  : list (Z * Z) :=
  filter (fun xy => in_frameb (sample_uv shaken pixel_size (fst xy) (snd xy))) l.

(** An image of one color [c] and one alpha [a]. *)
Definition flat_image (c : float3) (a : R) : texture2d := fun _ _ => mk4 c a.

(** * The filter around the shader

    The C++ part of [src/film-look-filter.cpp]: the filter's data, its
    settings, its clock and the call that hands the settings to the shader.
    The [obs_*] and [gs_*] functions are libobs's; they are given the
    behaviour libobs documents.  The casts [(float)] of a [double] and of a
    [uint32_t] are exact in the real-number model; the cast [(int)] of a
    [long long] wraps to 32 bits. *)

Module Host.

Local Open Scope string_scope.

(** ** Settings objects ([obs_data_t]) *)

(** A number item holds a [long long] or a [double]. *)
Inductive number : Type := Int (z : Z) | Double (r : R).

(** Per name, the value the user has set and the default value. *)
Record obs_data : Type := mkData {
  user_value : string -> option number;
  default_value : string -> option number
}.

Definition empty_data : obs_data := mkData (fun _ => None) (fun _ => None).

(** The value a getter reads: the user's, else the default. *)
Definition get_item (d : obs_data) (name : string) : option number :=
  match user_value d name with
  | Some n => Some n
  | None => default_value d name
  end.

(** [(long long)r]: towards zero. *)
Definition truncate (r : R) : Z :=
  if Rle_dec 0 r then Int_part r else (- Int_part (- r))%Z.

Definition obs_data_get_double (d : obs_data) (name : string) : R :=
  match get_item d name with
  | Some (Double r) => r
  | Some (Int z) => IZR z
  | None => 0.0
  end.

Definition obs_data_get_int (d : obs_data) (name : string) : Z :=
  match get_item d name with
  | Some (Int z) => z
  | Some (Double r) => truncate r
  | None => 0%Z
  end.

Definition set_default (d : obs_data) (name : string) (n : number) : obs_data :=
  mkData (user_value d)
         (fun k => if String.eqb k name then Some n else default_value d k).

Definition obs_data_set_default_double (d : obs_data) (name : string) (v : R)
  : obs_data := set_default d name (Double v).

Definition obs_data_set_default_int (d : obs_data) (name : string) (v : Z)
  : obs_data := set_default d name (Int v).

(** ** Effects and their parameters ([gs_effect_t], [gs_eparam_t]) *)

Inductive param_type : Type :=
  TFloat | TInt | TFloat2 | TFloat4x4 | TTexture2d.

(** A parameter of an effect: the name and the type of a uniform. *)
Definition gs_eparam : Type := (string * param_type)%type.

(** A compiled effect: its uniforms. *)
Definition gs_effect : Type := list gs_eparam.

(** The uniforms [film_look_effect_string] declares, lines 15-47. *)
Definition film_look_effect_uniforms : gs_effect :=
  [ ("ViewProj", TFloat4x4); ("image", TTexture2d);
    ("elapsed_time", TFloat); ("uv_size", TFloat2);
    ("contrast", TFloat); ("teal_amount", TFloat); ("orange_amount", TFloat);
    ("bloom_intensity", TFloat); ("bloom_threshold", TFloat);
    ("bloom_radius", TInt);
    ("halation_intensity", TFloat); ("halation_threshold", TFloat);
    ("halation_radius", TInt);
    ("secondary_glow_intensity", TFloat); ("secondary_glow_threshold", TFloat);
    ("secondary_glow_radius", TInt);
    ("grain_intensity", TFloat);
    ("shake_intensity", TFloat); ("shake_speed", TFloat) ].

(** [gs_effect_create]: the effect of the text, or [NULL] when the text
    does not compile on the device ([compiles] is the device's answer). *)
Definition gs_effect_create (compiles : bool) : option gs_effect :=
  if compiles then Some film_look_effect_uniforms else None.

(** [gs_effect_get_param_by_name]: [NULL] for a name the effect does not
    declare. *)
Definition gs_effect_get_param_by_name (effect : gs_effect) (name : string)
  : option gs_eparam :=
  find (fun p => String.eqb (fst p) name) effect.

(** A value handed to a parameter. *)
Inductive param_value : Type :=
| PFloat (v : R)
| PInt (v : Z)
| PVec2 (v : float2).

(** One call of a setter that reached a parameter. *)
Definition assignment : Type := (gs_eparam * param_value)%type.

(** The setters do nothing on a [NULL] parameter. *)
Definition gs_effect_set_float (param : option gs_eparam) (v : R)
  : list assignment :=
  match param with Some p => [(p, PFloat v)] | None => [] end.

Definition gs_effect_set_int (param : option gs_eparam) (v : Z)
  : list assignment :=
  match param with Some p => [(p, PInt v)] | None => [] end.

Definition gs_effect_set_vec2 (param : option gs_eparam) (v : float2)
  : list assignment :=
  match param with Some p => [(p, PVec2 v)] | None => [] end.

(** ** The filter's data ([struct film_look_data]) *)

Record film_look_data : Type := mkFilter {
  effect : option gs_effect;
  contrast : R;
  teal_amount : R;
  orange_amount : R;
  bloom_intensity : R;
  bloom_threshold : R;
  bloom_radius : Z;
  halation_intensity : R;
  halation_threshold : R;
  halation_radius : Z;
  secondary_glow_intensity : R;
  secondary_glow_threshold : R;
  secondary_glow_radius : Z;
  grain_intensity : R;
  shake_intensity : R;
  shake_speed : R;
  total_elapsed_time : R;
  param_contrast : option gs_eparam;
  param_teal_amount : option gs_eparam;
  param_orange_amount : option gs_eparam;
  param_bloom_intensity : option gs_eparam;
  param_bloom_threshold : option gs_eparam;
  param_bloom_radius : option gs_eparam;
  param_halation_intensity : option gs_eparam;
  param_halation_threshold : option gs_eparam;
  param_halation_radius : option gs_eparam;
  param_secondary_glow_intensity : option gs_eparam;
  param_secondary_glow_threshold : option gs_eparam;
  param_secondary_glow_radius : option gs_eparam;
  param_grain_intensity : option gs_eparam;
  param_shake_intensity : option gs_eparam;
  param_shake_speed : option gs_eparam;
  param_uv_size : option gs_eparam;
  param_elapsed_time : option gs_eparam
}.

(** [bzalloc]: every field zero, every pointer [NULL]. *)
Definition bzalloc : film_look_data :=
  mkFilter None
    0 0 0 0 0 0%Z 0 0 0%Z 0 0 0%Z 0 0 0
    0
    None None None None None None None None None None None None None None
    None None None.

(** [update_effect]: the old effect, if any, is destroyed and the text is
    compiled anew (the removal of the [[loop]] attribute on OpenGL changes
    no uniform); on failure the function returns with [effect = NULL] and
    the parameter pointers as they were. *)
Definition update_effect (compiles : bool) (filter : film_look_data)
  : film_look_data :=
  match gs_effect_create compiles with
  | None =>
      mkFilter None
        (contrast filter) (teal_amount filter) (orange_amount filter)
        (bloom_intensity filter) (bloom_threshold filter) (bloom_radius filter)
        (halation_intensity filter) (halation_threshold filter)
        (halation_radius filter)
        (secondary_glow_intensity filter) (secondary_glow_threshold filter)
        (secondary_glow_radius filter)
        (grain_intensity filter) (shake_intensity filter) (shake_speed filter)
        (total_elapsed_time filter)
        (param_contrast filter) (param_teal_amount filter)
        (param_orange_amount filter)
        (param_bloom_intensity filter) (param_bloom_threshold filter)
        (param_bloom_radius filter)
        (param_halation_intensity filter) (param_halation_threshold filter)
        (param_halation_radius filter)
        (param_secondary_glow_intensity filter)
        (param_secondary_glow_threshold filter)
        (param_secondary_glow_radius filter)
        (param_grain_intensity filter) (param_shake_intensity filter)
        (param_shake_speed filter)
        (param_uv_size filter) (param_elapsed_time filter)
  | Some e =>
      mkFilter (Some e)
        (contrast filter) (teal_amount filter) (orange_amount filter)
        (bloom_intensity filter) (bloom_threshold filter) (bloom_radius filter)
        (halation_intensity filter) (halation_threshold filter)
        (halation_radius filter)
        (secondary_glow_intensity filter) (secondary_glow_threshold filter)
        (secondary_glow_radius filter)
        (grain_intensity filter) (shake_intensity filter) (shake_speed filter)
        (total_elapsed_time filter)
        (gs_effect_get_param_by_name e "contrast")
        (gs_effect_get_param_by_name e "teal_amount")
        (gs_effect_get_param_by_name e "orange_amount")
        (gs_effect_get_param_by_name e "bloom_intensity")
        (gs_effect_get_param_by_name e "bloom_threshold")
        (gs_effect_get_param_by_name e "bloom_radius")
        (gs_effect_get_param_by_name e "halation_intensity")
        (gs_effect_get_param_by_name e "halation_threshold")
        (gs_effect_get_param_by_name e "halation_radius")
        (gs_effect_get_param_by_name e "secondary_glow_intensity")
        (gs_effect_get_param_by_name e "secondary_glow_threshold")
        (gs_effect_get_param_by_name e "secondary_glow_radius")
        (gs_effect_get_param_by_name e "grain_intensity")
        (gs_effect_get_param_by_name e "shake_intensity")
        (gs_effect_get_param_by_name e "shake_speed")
        (gs_effect_get_param_by_name e "uv_size")
        (gs_effect_get_param_by_name e "elapsed_time")
  end.

(** [film_look_create]: a zeroed filter with the clock at 0 and the effect
    loaded.  Its last call, [obs_source_update], asks libobs to call
    [film_look_update] with the settings; that call is an event of its
    own below. *)
Definition film_look_create (compiles : bool) : film_look_data :=
  update_effect compiles bzalloc.

(** [film_look_update]: the fifteen settings are read anew; nothing else
    changes. *)
Definition film_look_update (filter : film_look_data) (settings : obs_data)
  : film_look_data :=
  mkFilter (effect filter)
    (obs_data_get_double settings "contrast")
    (obs_data_get_double settings "teal_amount")
    (obs_data_get_double settings "orange_amount")
    (obs_data_get_double settings "bloom_intensity")
    (obs_data_get_double settings "bloom_threshold")
    (wrap (obs_data_get_int settings "bloom_radius"))
    (obs_data_get_double settings "halation_intensity")
    (obs_data_get_double settings "halation_threshold")
    (wrap (obs_data_get_int settings "halation_radius"))
    (obs_data_get_double settings "secondary_glow_intensity")
    (obs_data_get_double settings "secondary_glow_threshold")
    (wrap (obs_data_get_int settings "secondary_glow_radius"))
    (obs_data_get_double settings "grain_intensity")
    (obs_data_get_double settings "shake_intensity")
    (obs_data_get_double settings "shake_speed")
    (total_elapsed_time filter)
    (param_contrast filter) (param_teal_amount filter)
    (param_orange_amount filter)
    (param_bloom_intensity filter) (param_bloom_threshold filter)
    (param_bloom_radius filter)
    (param_halation_intensity filter) (param_halation_threshold filter)
    (param_halation_radius filter)
    (param_secondary_glow_intensity filter)
    (param_secondary_glow_threshold filter)
    (param_secondary_glow_radius filter)
    (param_grain_intensity filter) (param_shake_intensity filter)
    (param_shake_speed filter)
    (param_uv_size filter) (param_elapsed_time filter).

(** [film_look_defaults] *)
Definition film_look_defaults (settings : obs_data) : obs_data :=
  let settings := obs_data_set_default_double settings "contrast" 1.2 in
  let settings := obs_data_set_default_double settings "teal_amount" 0.2 in
  let settings := obs_data_set_default_double settings "orange_amount" 0.15 in
  let settings := obs_data_set_default_double settings "bloom_intensity" 0.5 in
  let settings := obs_data_set_default_double settings "bloom_threshold" 0.8 in
  let settings := obs_data_set_default_int settings "bloom_radius" 2 in
  let settings :=
    obs_data_set_default_double settings "halation_intensity" 0.4 in
  let settings :=
    obs_data_set_default_double settings "halation_threshold" 0.95 in
  let settings := obs_data_set_default_int settings "halation_radius" 4 in
  let settings :=
    obs_data_set_default_double settings "secondary_glow_intensity" 0.3 in
  let settings :=
    obs_data_set_default_double settings "secondary_glow_threshold" 0.75 in
  let settings :=
    obs_data_set_default_int settings "secondary_glow_radius" 3 in
  let settings := obs_data_set_default_double settings "grain_intensity" 0.04 in
  let settings :=
    obs_data_set_default_double settings "shake_intensity" 0.002 in
  obs_data_set_default_double settings "shake_speed" 5.0.

(** A slider of the properties view: name, minimum, maximum, step. *)
Inductive property : Type :=
| FloatSlider (name : string) (min max step : R)
| IntSlider (name : string) (min max step : Z).

(** [film_look_properties] *)
Definition film_look_properties : list property :=
  [ FloatSlider "contrast" 0.5 2.5 0.05;
    FloatSlider "teal_amount" 0.0 1.0 0.01;
    FloatSlider "orange_amount" 0.0 1.0 0.01;
    FloatSlider "bloom_intensity" 0.0 4.0 0.05;
    FloatSlider "bloom_threshold" 0.3 1.0 0.01;
    IntSlider "bloom_radius" 1 5 1;
    FloatSlider "halation_intensity" 0.0 4.0 0.05;
    FloatSlider "halation_threshold" 0.5 1.0 0.01;
    IntSlider "halation_radius" 2 8 1;
    FloatSlider "secondary_glow_intensity" 0.0 3.0 0.05;
    FloatSlider "secondary_glow_threshold" 0.3 1.0 0.01;
    IntSlider "secondary_glow_radius" 1 7 1;
    FloatSlider "grain_intensity" 0.0 0.2 0.005;
    FloatSlider "shake_intensity" 0.0 0.02 0.0005;
    FloatSlider "shake_speed" 0.0 20.0 0.5 ].

(** [film_look_tick]: [total_elapsed_time += seconds].  The sum is exact
    here; the [float] of the source rounds it, and absorbs a tick that is
    small beside the clock. *)
Definition film_look_tick (filter : film_look_data) (seconds : R)
  : film_look_data :=
  mkFilter (effect filter)
    (contrast filter) (teal_amount filter) (orange_amount filter)
    (bloom_intensity filter) (bloom_threshold filter) (bloom_radius filter)
    (halation_intensity filter) (halation_threshold filter)
    (halation_radius filter)
    (secondary_glow_intensity filter) (secondary_glow_threshold filter)
    (secondary_glow_radius filter)
    (grain_intensity filter) (shake_intensity filter) (shake_speed filter)
    (total_elapsed_time filter + seconds)
    (param_contrast filter) (param_teal_amount filter)
    (param_orange_amount filter)
    (param_bloom_intensity filter) (param_bloom_threshold filter)
    (param_bloom_radius filter)
    (param_halation_intensity filter) (param_halation_threshold filter)
    (param_halation_radius filter)
    (param_secondary_glow_intensity filter)
    (param_secondary_glow_threshold filter)
    (param_secondary_glow_radius filter)
    (param_grain_intensity filter) (param_shake_intensity filter)
    (param_shake_speed filter)
    (param_uv_size filter) (param_elapsed_time filter).

(** What a call of [film_look_render] does. *)
Inductive rendered : Type :=
| Skipped                              (* [obs_source_skip_video_filter] *)
| NotBegun                             (* [process_filter_begin] said no *)
| Drawn (calls : list assignment).     (* the setters, then the draw *)

(** [film_look_render]: [target] is the filter's target with its width and
    height ([None] for [NULL]), [begins] the answer of
    [obs_source_process_filter_begin]. *)
Definition film_look_render (filter : film_look_data)
  (target : option (Z * Z)) (begins : bool) : rendered :=
  match effect filter, target with
  | Some _, Some (width, height) =>
      let uv_size := mk2 (IZR width) (IZR height) in
      if begins then
        Drawn
          (gs_effect_set_float (param_contrast filter) (contrast filter)
           ++ gs_effect_set_float (param_teal_amount filter) (teal_amount filter)
           ++ gs_effect_set_float (param_orange_amount filter)
                (orange_amount filter)
           ++ gs_effect_set_float (param_bloom_intensity filter)
                (bloom_intensity filter)
           ++ gs_effect_set_float (param_bloom_threshold filter)
                (bloom_threshold filter)
           ++ gs_effect_set_int (param_bloom_radius filter) (bloom_radius filter)
           ++ gs_effect_set_float (param_halation_intensity filter)
                (halation_intensity filter)
           ++ gs_effect_set_float (param_halation_threshold filter)
                (halation_threshold filter)
           ++ gs_effect_set_int (param_halation_radius filter)
                (halation_radius filter)
           ++ gs_effect_set_float (param_secondary_glow_intensity filter)
                (secondary_glow_intensity filter)
           ++ gs_effect_set_float (param_secondary_glow_threshold filter)
                (secondary_glow_threshold filter)
           ++ gs_effect_set_int (param_secondary_glow_radius filter)
                (secondary_glow_radius filter)
           ++ gs_effect_set_float (param_grain_intensity filter)
                (grain_intensity filter)
           ++ gs_effect_set_float (param_shake_intensity filter)
                (shake_intensity filter)
           ++ gs_effect_set_float (param_shake_speed filter) (shake_speed filter)
           ++ gs_effect_set_vec2 (param_uv_size filter) uv_size
           ++ gs_effect_set_float (param_elapsed_time filter)
                (total_elapsed_time filter))%list
      else NotBegun
  | _, _ => Skipped
  end.

(** ** The calls libobs makes between creation and a render *)

Inductive event : Type :=
| Update (settings : obs_data)
| Tick (seconds : R).

Definition step (filter : film_look_data) (ev : event) : film_look_data :=
  match ev with
  | Update settings => film_look_update filter settings
  | Tick seconds => film_look_tick filter seconds
  end.

Definition run (events : list event) (filter : film_look_data)
  : film_look_data :=
  fold_left step events filter.

(** The seconds of the ticks among the events, summed. *)
Fixpoint ticked (events : list event) : R :=
  match events with
  | [] => 0
  | Tick seconds :: rest => seconds + ticked rest
  | Update _ :: rest => ticked rest
  end.

(** ** The uniforms the shader reads *)







(** The filter's settings and clock as uniforms, on a target of the given
    size. *)
Definition uniforms_of (filter : film_look_data) (width height : Z)
  : uniforms :=
  mkUniforms (total_elapsed_time filter) (mk2 (IZR width) (IZR height))
    (contrast filter) (teal_amount filter) (orange_amount filter)
    (bloom_intensity filter) (bloom_threshold filter) (bloom_radius filter)
    (halation_intensity filter) (halation_threshold filter)
    (halation_radius filter)
    (secondary_glow_intensity filter) (secondary_glow_threshold filter)
    (secondary_glow_radius filter)
    (grain_intensity filter)
    (shake_intensity filter) (shake_speed filter).

(** ** Settings a properties view can produce *)

Definition property_name (p : property) : string :=
  match p with
  | FloatSlider name _ _ _ => name
  | IntSlider name _ _ _ => name
  end.

(** The slider admits the number: a [double] for a float slider, a
    [long long] for an int slider, between minimum and maximum. *)
Definition admits (p : property) (n : number) : Prop :=
  match p, n with
  | FloatSlider _ lo hi _, Double v => lo <= v <= hi
  | IntSlider _ lo hi _, Int z => (lo <= z <= hi)%Z
  | _, _ => False
  end.

(** Under the name of every slider the settings hold a number the slider
    admits. *)
Definition within_sliders (settings : obs_data) : Prop :=
  forall p, In p film_look_properties ->
    exists n, get_item settings (property_name p) = Some n /\ admits p n.

End Host.

(** ** The filter's wiring *)

(** The effect and the seventeen parameter pointers of a filter: what
    [update_effect] sets and nothing else touches. *)
Definition wiring (filter : Host.film_look_data) :=
  (Host.effect filter,
   [ Host.param_contrast filter; Host.param_teal_amount filter;
     Host.param_orange_amount filter;
     Host.param_bloom_intensity filter; Host.param_bloom_threshold filter;
     Host.param_bloom_radius filter;
     Host.param_halation_intensity filter;
     Host.param_halation_threshold filter;
     Host.param_halation_radius filter;
     Host.param_secondary_glow_intensity filter;
     Host.param_secondary_glow_threshold filter;
     Host.param_secondary_glow_radius filter;
     Host.param_grain_intensity filter; Host.param_shake_intensity filter;
     Host.param_shake_speed filter;
     Host.param_uv_size filter; Host.param_elapsed_time filter ]).

(** The settings hold no value of the user's. *)
Definition untouched (settings : Host.obs_data) : Prop :=
  forall name, Host.user_value settings name = None.

(** Bloom alone, at intensity 1 and threshold 0, with all three radii set
    to [r]: contrast 1, no split-tone, halation and secondary glow at
    intensity 0, no grain, no shake. *)
Definition bloom_all_radii (r : Z) (size : float2) : uniforms :=
  mkUniforms 0 size
    1 0 0
    1 0 r
    0 0 r
    0 0 r
    0
    0 0.

(** A frame so large that [int_min] pixels are a quarter of it. *)
Definition vast_frame : float2 := mk2 8589934592 8589934592.

(** ** Sequences of events *)

(** No tick among the events takes the clock back. *)
Definition ticks_nonneg (events : list Host.event) : Prop :=
  forall seconds, In (Host.Tick seconds) events -> 0 <= seconds.

(** The events are updates of the settings, without a tick. *)
Definition only_updates (events : list Host.event) : Prop :=
  forall seconds, ~ In (Host.Tick seconds) events.

(** * Properties *)

(** ** Integers within range do not wrap *)

Lemma wrap_in_range (z : Z) :
  (int_min <= z <= int_max)%Z -> wrap z = z.
Proof.
  unfold wrap, int_min, int_max. intros Hz.
  rewrite Z.mod_small by lia. lia.
Qed.

Lemma incr_in_range (z : Z) :
  (int_min <= z < int_max)%Z -> incr z = (z + 1)%Z.
Proof.
  intros Hz. unfold incr. apply wrap_in_range.
  unfold int_min, int_max in *. lia.
Qed.

Lemma ineg_in_range (z : Z) :
  (int_min < z <= int_max)%Z -> ineg z = (- z)%Z.
Proof.
  intros Hz. unfold ineg. apply wrap_in_range.
  unfold int_min, int_max in *. lia.
Qed.

Lemma iabs_in_range (z : Z) :
  (int_min < z <= int_max)%Z -> iabs z = Z.abs z.
Proof.
  intros Hz. unfold iabs. apply wrap_in_range.
  unfold int_min, int_max in *. lia.
Qed.

(** ** The offsets of a loop *)

Lemma zseq_In (n : nat) : forall lo x,
  In x (zseq lo n) <-> (lo <= x < lo + Z.of_nat n)%Z.
Proof.
  induction n as [|n IH]; intros lo x; simpl zseq.
  - simpl. lia.
  - simpl In. rewrite IH. lia.
Qed.

Lemma zseq_length (n : nat) : forall lo, length (zseq lo n) = n.
Proof.
  induction n as [|n IH]; intros lo; simpl; [reflexivity | now rewrite IH].
Qed.

Lemma zseq_app (n k : nat) : forall lo,
  zseq lo (n + k) = zseq lo n ++ zseq (lo + Z.of_nat n) k.
Proof.
  induction n as [|n IH]; intros lo.
  - simpl. now rewrite Z.add_0_r.
  - change (S n + k)%nat with (S (n + k)). simpl zseq. rewrite IH.
    simpl. do 3 f_equal. lia.
Qed.

Lemma zseq_NoDup (n : nat) : forall lo, NoDup (zseq lo n).
Proof.
  induction n as [|n IH]; intros lo; simpl; constructor.
  - rewrite zseq_In. lia.
  - apply IH.
Qed.

Lemma offsets_In (r x : Z) : In x (offsets r) <-> (Z.abs x <= r)%Z.
Proof. unfold offsets. rewrite zseq_In. lia. Qed.

Lemma offsets_length (r : Z) : length (offsets r) = Z.to_nat (2 * r + 1).
Proof. apply zseq_length. Qed.

Lemma offsets_negative (r : Z) : (r < 0)%Z -> offsets r = [].
Proof.
  intros Hr. unfold offsets.
  replace (Z.to_nat (2 * r + 1)) with 0%nat by lia. reflexivity.
Qed.

(** A loop whose counter stays below [int_max] runs its body once per
    offset, in order, and needs one unit of fuel more than it has offsets. *)
Lemma for_loop_fold {S : Type} (body : Z -> S -> result S) (hi : Z) :
  forall (n fuel : nat) (lo : Z) (s : S),
    n = Z.to_nat (hi - lo + 1) ->
    (int_min <= lo)%Z -> (hi < int_max)%Z -> (n < fuel)%nat ->
    for_loop fuel lo hi body s = foldM body (zseq lo n) s.
Proof.
  induction n as [|n IH]; intros fuel lo s Hn Hlo Hhi Hfuel;
    (destruct fuel as [|fuel]; [lia|]); simpl for_loop.
  - destruct (Z.leb_spec lo hi) as [Hle|Hlt]; [lia | reflexivity].
  - destruct (Z.leb_spec lo hi) as [Hle|Hlt]; [|lia].
    simpl zseq. simpl foldM. destruct (body lo s) as [s'| |]; simpl; try reflexivity.
    rewrite incr_in_range by lia.
    apply IH; lia.
Qed.

Lemma foldM_pure {S : Type} (f : Z -> S -> S) (l : list Z) : forall s,
  foldM (fun i s' => Ok (f i s')) l s = Ok (fold_left (fun s' i => f i s') l s).
Proof.
  induction l as [|i l IH]; intros s; simpl; [reflexivity | apply IH].
Qed.

Lemma foldM_ext {S : Type} (f g : Z -> S -> result S) (l : list Z) :
  (forall i s, f i s = g i s) -> forall s, foldM f l s = foldM g l s.
Proof.
  intros Hfg. induction l as [|i l IH]; intros s; simpl; [reflexivity|].
  rewrite Hfg. destruct (g i s); simpl; auto.
Qed.

(** With the loop bound in range and enough fuel, the scan ends and is the
    fold of [scan_body] over the square of radius [max_radius_for_loop]. *)
Lemma glow_scan_ok fuel s image u shaken pixel_size :
  loop_in_range u -> enough_fuel fuel u ->
  glow_scan fuel s image u shaken pixel_size =
  Ok (scan_list s image u shaken pixel_size
        (offsets (max_radius_for_loop u)) (offsets (max_radius_for_loop u))
        glow_init).
Proof.
  unfold loop_in_range, enough_fuel, glow_scan, scan_list.
  set (m := max_radius_for_loop u). intros Hm Hfuel.
  assert (Hneg : ineg m = (- m)%Z) by (apply ineg_in_range; lia).
  assert (Hn : Z.to_nat (2 * m + 1) = Z.to_nat (m - - m + 1))
    by (f_equal; lia).
  rewrite Hneg.
  rewrite (for_loop_fold _ m (Z.to_nat (2 * m + 1)));
    try (unfold int_min, int_max in *; lia).
  rewrite (foldM_ext _
    (fun x st => Ok (fold_left
       (fun st' y => scan_body s image u shaken pixel_size x y st')
       (offsets m) st))).
  - apply (foldM_pure (fun x st => fold_left
       (fun st' y => scan_body s image u shaken pixel_size x y st')
       (offsets m) st)).
  - intros x st.
    rewrite (for_loop_fold _ m (Z.to_nat (2 * m + 1)));
      try (unfold int_min, int_max in *; lia).
    apply (foldM_pure (fun y st' => scan_body s image u shaken pixel_size x y st')).
Qed.

(** ** One effect at a time *)

(** The body of the scan changes the accumulator and the counter of an
    effect only through the effect's own gate. *)
Lemma scan_body_accum e s image u shaken pixel_size x y st :
  accum e (scan_body s image u shaken pixel_size x y st) =
  if gate u e x y
  then add3 (accum e st) (contribution e s image u shaken pixel_size x y)
  else accum e st.
Proof.
  unfold scan_body, gate, contribution.
  destruct e; simpl intensity; simpl radius; simpl threshold; simpl tinted;
    repeat match goal with
           | |- context [if ?c then _ else _] => destruct c
           end; reflexivity.
Qed.

Lemma scan_body_count e s image u shaken pixel_size x y st :
  sample_count e (scan_body s image u shaken pixel_size x y st) =
  if gate u e x y then sample_count e st + 1.0 else sample_count e st.
Proof.
  unfold scan_body, gate.
  destruct e; simpl intensity; simpl radius;
    repeat match goal with
           | |- context [if ?c then _ else _] => destruct c
           end; reflexivity.
Qed.

Section Projection.

Context {A : Type}.
Variable proj : glow_state -> A.
Variable keep : Z -> Z -> bool.
Variable upd : A -> Z -> Z -> A.
Variable step : Z -> Z -> glow_state -> glow_state.
Hypothesis proj_step : forall x y st,
  proj (step x y st) = if keep x y then upd (proj st) x y else proj st.

Lemma proj_fold_inner (x : Z) (ys : list Z) : forall st,
  proj (fold_left (fun st' y => step x y st') ys st) =
  fold_left (fun a y => if keep x y then upd a x y else a) ys (proj st).
Proof.
  induction ys as [|y ys IH]; intros st; simpl; [reflexivity|].
  rewrite IH, proj_step. reflexivity.
Qed.

Lemma proj_fold (xs ys : list Z) : forall st,
  proj (fold_left (fun st x => fold_left (fun st' y => step x y st') ys st)
                  xs st) =
  fold_left
    (fun a x => fold_left (fun a' y => if keep x y then upd a' x y else a') ys a)
    xs (proj st).
Proof.
  induction xs as [|x xs IH]; intros st; simpl; [reflexivity|].
  rewrite IH, proj_fold_inner. reflexivity.
Qed.

End Projection.

Section GatedFolds.

Context {A : Type}.

Lemma fold_left_never (keep : Z -> bool) (f : A -> Z -> A) (l : list Z) :
  (forall x, In x l -> keep x = false) ->
  forall a, fold_left (fun a x => if keep x then f a x else a) l a = a.
Proof.
  induction l as [|x l IH]; intros Hk a; simpl; [reflexivity|].
  rewrite (Hk x) by (left; reflexivity).
  apply IH. intros z Hz. apply Hk. right. exact Hz.
Qed.

Lemma fold_left_filter (keep : Z -> bool) (f : A -> Z -> A) (l : list Z) :
  forall a,
    fold_left (fun a x => if keep x then f a x else a) l a =
    fold_left f (filter keep l) a.
Proof.
  induction l as [|x l IH]; intros a; simpl; [reflexivity|].
  destruct (keep x); simpl; apply IH.
Qed.

Lemma fold_left_ext_in (f g : A -> Z -> A) (l : list Z) :
  (forall a x, In x l -> f a x = g a x) ->
  forall a, fold_left f l a = fold_left g l a.
Proof.
  induction l as [|x l IH]; intros Hfg a; simpl; [reflexivity|].
  rewrite Hfg by (left; reflexivity).
  apply IH. intros b z Hz. apply Hfg. right. exact Hz.
Qed.

Lemma fold_left_list_prod (f : A -> Z -> Z -> A) (ys : list Z) (xs : list Z) :
  forall a,
    fold_left (fun a x => fold_left (fun a' y => f a' x y) ys a) xs a =
    fold_left (fun a xy => f a (fst xy) (snd xy)) (list_prod xs ys) a.
Proof.
  induction xs as [|x xs IH]; intros a; simpl; [reflexivity|].
  rewrite fold_left_app, <- IH.
  replace (fold_left (fun a0 xy => f a0 (fst xy) (snd xy))
             (map (fun y => (x, y)) ys) a)
    with (fold_left (fun a' y => f a' x y) ys a); [reflexivity|].
  clear IH. generalize a. induction ys as [|y ys IHy]; intros b; simpl;
    [reflexivity | apply IHy].
Qed.

End GatedFolds.

Lemma filter_all (keep : Z -> bool) (l : list Z) :
  (forall x, In x l -> keep x = true) -> filter keep l = l.
Proof.
  induction l as [|x l IH]; intros Hk; simpl; [reflexivity|].
  rewrite (Hk x) by (left; reflexivity). f_equal.
  apply IH. intros z Hz. apply Hk. right. exact Hz.
Qed.

Lemma filter_none (keep : Z -> bool) (l : list Z) :
  (forall x, In x l -> keep x = false) -> filter keep l = [].
Proof.
  induction l as [|x l IH]; intros Hk; simpl; [reflexivity|].
  rewrite (Hk x) by (left; reflexivity).
  apply IH. intros z Hz. apply Hk. right. exact Hz.
Qed.

(** Within the offsets of the shared scan, those within an effect's own
    radius are the offsets of that radius, in the same order. *)
Lemma filter_offsets (m r : Z) :
  (0 <= r <= m)%Z ->
  filter (fun x => (Z.abs x <=? r)%Z) (offsets m) = offsets r.
Proof.
  intros Hr. unfold offsets.
  replace (Z.to_nat (2 * m + 1))
    with (Z.to_nat (m - r) + (Z.to_nat (2 * r + 1) + Z.to_nat (m - r)))%nat
    by lia.
  rewrite !zseq_app, !filter_app.
  rewrite filter_none, filter_all, filter_none.
  - simpl. rewrite app_nil_r. f_equal. lia.
  - intros x Hx. apply zseq_In in Hx. apply Z.leb_gt. lia.
  - intros x Hx. apply zseq_In in Hx. apply Z.leb_le. lia.
  - intros x Hx. apply zseq_In in Hx. apply Z.leb_gt. lia.
Qed.

(** ** The gate of an effect *)

Lemma gtb_true (a b : R) : b < a -> gtb a b = true.
Proof. intros H. unfold gtb. destruct (Rlt_dec b a); [reflexivity | lra]. Qed.

Lemma gtb_false (a b : R) : a <= b -> gtb a b = false.
Proof. intros H. unfold gtb. destruct (Rlt_dec b a); [lra | reflexivity]. Qed.

Lemma gate_intensity_off u e x y : intensity u e <= 0 -> gate u e x y = false.
Proof. intros H. unfold gate. rewrite gtb_false by lra. reflexivity. Qed.

Lemma offsets_int_range (m x : Z) :
  (int_min < m < int_max)%Z -> In x (offsets m) -> (int_min < x <= int_max)%Z.
Proof.
  intros Hm Hx. apply offsets_In in Hx.
  unfold int_min, int_max in *. lia.
Qed.

Lemma gate_radius_off u e x y :
  (radius u e < 0)%Z -> (int_min < x <= int_max)%Z -> gate u e x y = false.
Proof.
  intros Hr Hx. unfold gate. rewrite (iabs_in_range x Hx).
  replace (Z.abs x <=? radius u e)%Z with false
    by (symmetry; apply Z.leb_gt; lia).
  rewrite andb_false_r. reflexivity.
Qed.

Lemma gate_on u e x y :
  0 < intensity u e ->
  (int_min < x <= int_max)%Z -> (int_min < y <= int_max)%Z ->
  gate u e x y = (Z.abs x <=? radius u e)%Z && (Z.abs y <=? radius u e)%Z.
Proof.
  intros Hi Hx Hy. unfold gate.
  rewrite gtb_true, (iabs_in_range x Hx), (iabs_in_range y Hy) by lra.
  reflexivity.
Qed.

Lemma radius_le_max u e : (radius u e <= max_radius_for_loop u)%Z.
Proof. unfold max_radius_for_loop, imax. destruct e; simpl; lia. Qed.

Lemma fold_left_skip {A : Type} (l : list Z) : forall a : A,
  fold_left (fun a _ => a) l a = a.
Proof. induction l as [|x l IH]; intros a; simpl; auto. Qed.

Section GatedScan.

Context {A : Type}.
Variable upd : A -> Z -> Z -> A.
Variables (u : uniforms) (e : effect).

Lemma gated_fold_off (xs ys : list Z) (a : A) :
  (forall x y, In x xs -> In y ys -> gate u e x y = false) ->
  gated_fold upd u e xs ys a = a.
Proof.
  intros Hoff. unfold gated_fold.
  rewrite (fold_left_ext_in _ (fun a _ => a)).
  - apply fold_left_skip.
  - intros b x Hx.
    rewrite (fold_left_ext_in _ (fun a' _ => a')).
    + apply fold_left_skip.
    + intros c y Hy. now rewrite Hoff.
Qed.

Lemma gated_fold_on (a : A) :
  let m := max_radius_for_loop u in
  let r := radius u e in
  loop_in_range u -> 0 < intensity u e -> (0 <= r)%Z ->
  gated_fold upd u e (offsets m) (offsets m) a =
  fold_left (fun a xy => upd a (fst xy) (snd xy)) (square r) a.
Proof.
  intros m r Hm Hi Hr. unfold gated_fold, square.
  assert (Hrm : (r <= m)%Z) by apply radius_le_max.
  rewrite <- fold_left_list_prod.
  rewrite <- (filter_offsets m r) at 1 by lia.
  rewrite <- fold_left_filter.
  apply fold_left_ext_in. intros b x Hx.
  pose proof (offsets_int_range m x Hm Hx) as Hxr.
  rewrite (fold_left_ext_in _
    (fun a' y => if (Z.abs y <=? r)%Z
                 then (if (Z.abs x <=? r)%Z then upd a' x y else a')
                 else a')).
  - rewrite fold_left_filter, filter_offsets by lia.
    destruct (Z.abs x <=? r)%Z; [reflexivity|].
    apply fold_left_skip.
  - intros c y Hy.
    pose proof (offsets_int_range m y Hm Hy) as Hyr.
    rewrite gate_on by assumption. fold r.
    destruct (Z.abs x <=? r)%Z, (Z.abs y <=? r)%Z; reflexivity.
Qed.

End GatedScan.

Lemma scan_list_accum s image u shaken pixel_size e xs ys st :
  accum e (scan_list s image u shaken pixel_size xs ys st) =
  gated_fold
    (fun a x y => add3 a (contribution e s image u shaken pixel_size x y))
    u e xs ys (accum e st).
Proof.
  unfold scan_list, gated_fold.
  apply (proj_fold (accum e) (gate u e)
           (fun a x y => add3 a (contribution e s image u shaken pixel_size x y))).
  intros x y st'. apply scan_body_accum.
Qed.

Lemma scan_list_count s image u shaken pixel_size e xs ys st :
  sample_count e (scan_list s image u shaken pixel_size xs ys st) =
  gated_fold (fun c _ _ => c + 1.0) u e xs ys (sample_count e st).
Proof.
  unfold scan_list, gated_fold.
  apply (proj_fold (sample_count e) (gate u e) (fun c _ _ => c + 1.0)).
  intros x y st'. apply scan_body_count.
Qed.

Lemma count_fold {B : Type} (l : list B) : forall c,
  fold_left (fun c _ => c + 1.0) l c = c + INR (length l).
Proof.
  induction l as [|b l IH]; intros c.
  - simpl. lra.
  - simpl fold_left. rewrite IH. simpl length. rewrite S_INR. lra.
Qed.

Lemma square_length (r : Z) :
  (0 <= r)%Z -> INR (length (square r)) = IZR ((2 * r + 1) ^ 2).
Proof.
  intros Hr. unfold square. rewrite length_prod, offsets_length.
  rewrite mult_INR, INR_IZR_INZ, Z2Nat.id by lia.
  rewrite <- mult_IZR. f_equal. lia.
Qed.

Lemma square_In (r x y : Z) :
  In (x, y) (square r) <-> (Z.abs x <= r)%Z /\ (Z.abs y <= r)%Z.
Proof. unfold square. rewrite in_prod_iff, !offsets_In. reflexivity. Qed.

Lemma list_prod_NoDup (xs ys : list Z) :
  NoDup xs -> NoDup ys -> NoDup (list_prod xs ys).
Proof.
  intros Hxs Hys. induction Hxs as [|x xs Hx Hxs IH]; simpl; [constructor|].
  apply NoDup_app.
  - apply NoDup_map_NoDup_ForallPairs; [|exact Hys].
    intros y y' _ _ Heq. congruence.
  - exact IH.
  - intros [x' y'] Hin Hin'. apply in_map_iff in Hin.
    destruct Hin as [y [Heq _]]. apply in_prod_iff in Hin'.
    assert (x' = x) by congruence. subst x'. tauto.
Qed.

Lemma square_NoDup (r : Z) : NoDup (square r).
Proof. unfold square. apply list_prod_NoDup; apply zseq_NoDup. Qed.

(** ** A finished evaluation *)

Lemma normalize_total (acc : float3) (count : R) :
  normalize acc count = Ok (mean_of acc count).
Proof.
  unfold normalize, mean_of, gtb.
  destruct (Rlt_dec 0.0 count) as [Hpos|Hnpos]; [|reflexivity].
  unfold div3, fdiv.
  destruct (Req_dec_T count 0) as [Hz|Hnz]; [lra | reflexivity].
Qed.

Lemma rdiv2_ok (u : uniforms) :
  frame_size_ok u -> rdiv2 1.0 (uv_size u) = Ok (reciprocal_size u).
Proof.
  intros [Hx Hy]. unfold rdiv2, fdiv, reciprocal_size.
  destruct (Req_dec_T (vx (uv_size u)) 0) as [Hz|_]; [contradiction|].
  destruct (Req_dec_T (vy (uv_size u)) 0) as [Hz|_]; [contradiction|].
  reflexivity.
Qed.

(** With the loop bound in range and enough fuel, an evaluation whose
    pixel size is defined returns the pixel [shade] describes. *)
Lemma film_look_run fuel s pixel_size_of image u uv pixel_size :
  loop_in_range u -> enough_fuel fuel u ->
  pixel_size_of (uv_size u) = Ok pixel_size ->
  film_look fuel s pixel_size_of image u uv =
  Ok (shade s image u uv pixel_size).
Proof.
  intros Hm Hfuel Hps. unfold film_look. rewrite Hps. simpl bind.
  rewrite glow_scan_ok by assumption. simpl bind.
  rewrite !normalize_total. reflexivity.
Qed.

Lemma mainImage_run fuel image u uv :
  loop_in_range u -> enough_fuel fuel u -> frame_size_ok u ->
  mainImage fuel image u uv =
  Ok (shade textureSampler image u uv (reciprocal_size u)).
Proof.
  intros Hm Hfuel Hsize. unfold mainImage.
  apply film_look_run; try assumption. now apply rdiv2_ok.
Qed.

Lemma pixel_shader_run fuel image u uv :
  loop_in_range u -> enough_fuel fuel u ->
  pixel_shader fuel image u uv =
  Ok (shade effect_textureSampler image u uv (uv_size u)).
Proof.
  intros Hm Hfuel. unfold pixel_shader.
  now apply film_look_run.
Qed.

(** Whatever the fuel, a returned pixel carries the alpha of the sample at
    the shaken coordinate. *)
Lemma film_look_alpha fuel s pixel_size_of image u uv out :
  film_look fuel s pixel_size_of image u uv = Ok out ->
  alpha out = alpha (Sample s image (shaken_uv u uv)).
Proof.
  unfold film_look. intros H.
  destruct (pixel_size_of (uv_size u)) as [ps| |]; simpl in H; try discriminate.
  destruct (glow_scan fuel s image u (shaken_uv u uv) ps) as [st| |];
    simpl in H; try discriminate.
  destruct (normalize (bloom_accum st) (bloom_sample_count st)) as [b| |];
    simpl in H; try discriminate.
  destruct (normalize (halation_accum st) (halation_sample_count st))
    as [h| |]; simpl in H; try discriminate.
  destruct (normalize (secondary_glow_accum st)
              (secondary_glow_sample_count st)) as [g| |];
    simpl in H; try discriminate.
  injection H as <-. reflexivity.
Qed.

Lemma add2_zero (uv : float2) : add2 uv (mk2 0.0 0.0) = uv.
Proof. destruct uv as [x y]. unfold add2. simpl. f_equal; lra. Qed.

Lemma shake_offset_off (u : uniforms) :
  shake_intensity u <= 0 -> shake_offset u = mk2 0.0 0.0.
Proof.
  intros H. unfold shake_offset. rewrite gtb_false by lra. reflexivity.
Qed.

Lemma shaken_uv_off (u : uniforms) (uv : float2) :
  shake_intensity u <= 0 -> shaken_uv u uv = uv.
Proof.
  intros H. unfold shaken_uv. rewrite shake_offset_off by assumption.
  apply add2_zero.
Qed.

Lemma default_loop_in_range : loop_in_range default_uniforms.
Proof. unfold loop_in_range. vm_compute. split; reflexivity. Qed.

Lemma default_enough_fuel : enough_fuel 10 default_uniforms.
Proof. unfold enough_fuel. vm_compute. lia. Qed.

Lemma default_frame_size_ok : frame_size_ok default_uniforms.
Proof. unfold frame_size_ok. simpl. split; lra. Qed.

(** ** Alpha *)

Lemma half_opaque_right (p : float2) :
  0.5 < vx p -> alpha (Sample textureSampler half_opaque p) = 0.
Proof.
  intros Hp. unfold Sample, textureSampler, address, half_opaque. simpl.
  destruct (Rle_dec 0 (vx p)); [|reflexivity].
  destruct (Rle_dec (vx p) 1); [|reflexivity].
  destruct (Rle_dec 0 (vy p)); [|reflexivity].
  destruct (Rle_dec (vy p) 1); [|reflexivity].
  simpl. destruct (Rle_dec (vx p) 0.5); [lra | reflexivity].
Qed.

Lemma half_opaque_center :
  alpha (Sample textureSampler half_opaque center) = 1.
Proof.
  unfold Sample, textureSampler, address, half_opaque, center. simpl.
  destruct (Rle_dec 0 0.5); [|lra].
  destruct (Rle_dec 0.5 1); [|lra].
  simpl. destruct (Rle_dec 0.5 0.5); [reflexivity | lra].
Qed.

(** At the first tick the default shake moves the sample to the right. *)
Lemma default_shake_right : 0.5 < vx (shaken_uv default_uniforms center).
Proof.
  unfold shaken_uv, shake_offset, default_uniforms, center. simpl.
  rewrite gtb_true by lra. simpl.
  pose proof PI2_1 as Hpi.
  assert (H1 : 0 < sin (0 * 5.0 * 1.3 + 0.5)) by (apply sin_gt_0; lra).
  assert (H2 : 0 < sin (0 * 5.0 * 2.7 + 1.2)) by (apply sin_gt_0; lra).
  lra.
Qed.

(** C1 (as amended): the alpha of the output pixel is the alpha of the
    input sampled at the shaken coordinate, the pixel center plus the shake
    offset, whatever the color stages compute; it is the alpha of the
    sample at the pixel center itself when [shake_intensity <= 0].  This
    holds of every pixel an evaluation returns, and an evaluation returns
    a pixel when the loop bound is in range, the fuel suffices and
    [uv_size] has no zero component. *)
Theorem C1_alpha_of_shaken_sample fuel image u uv :
  (forall out,
     mainImage fuel image u uv = Ok out ->
     alpha out =
       alpha (Sample textureSampler image (add2 uv (shake_offset u))) /\
     (shake_intensity u <= 0 ->
      alpha out = alpha (Sample textureSampler image uv))) /\
  (loop_in_range u -> enough_fuel fuel u -> frame_size_ok u ->
   exists out, mainImage fuel image u uv = Ok out).
Proof.
  split.
  - intros out Hout. unfold mainImage in Hout.
    apply film_look_alpha in Hout. split; [exact Hout|].
    intros Hoff. now rewrite Hout, shaken_uv_off.
  - intros Hm Hfuel Hsize. eexists. now apply mainImage_run.
Qed.

Lemma C1_alpha_of_shaken_sample_witness :
  (forall out,
     mainImage 10 half_opaque default_uniforms center = Ok out ->
     alpha out =
       alpha (Sample textureSampler half_opaque
                (add2 center (shake_offset default_uniforms))) /\
     (shake_intensity default_uniforms <= 0 ->
      alpha out = alpha (Sample textureSampler half_opaque center))) /\
  exists out, mainImage 10 half_opaque default_uniforms center = Ok out.
Proof.
  destruct (C1_alpha_of_shaken_sample 10 half_opaque default_uniforms center)
    as [Halpha Hruns].
  split; [exact Halpha|].
  apply Hruns.
  - unfold loop_in_range. vm_compute. split; reflexivity.
  - unfold enough_fuel. vm_compute. lia.
  - unfold frame_size_ok. simpl. split; lra.
Defined.

(** C1 fails as stated: with the default settings at the first tick, on an
    image opaque in its left half only, the pixel at the center of the frame
    comes out transparent although the sample at the center is opaque. *)
Lemma C1_alpha_not_of_base_sample :
  exists out,
    mainImage 10 half_opaque default_uniforms center = Ok out /\
    alpha out = 0 /\
    alpha (Sample textureSampler half_opaque center) = 1 /\
    alpha out <> alpha (Sample textureSampler half_opaque center).
Proof.
  exists (shade textureSampler half_opaque default_uniforms center
            (reciprocal_size default_uniforms)).
  assert (Hout : alpha (shade textureSampler half_opaque default_uniforms
                          center (reciprocal_size default_uniforms)) = 0).
  { simpl. apply half_opaque_right. apply default_shake_right. }
  split.
  - apply mainImage_run.
    + apply default_loop_in_range.
    + apply default_enough_fuel.
    + apply default_frame_size_ok.
  - rewrite Hout, half_opaque_center. repeat split; lra.
Qed.

(** ** Sampling outside the frame *)

Lemma Sample_border_outside (s : sampler_state) image uv :
  AddressU s = Border -> AddressV s = Border ->
  outside_frame uv -> Sample s image uv = BorderColor s.
Proof.
  intros HU HV Hout. unfold Sample, address. rewrite HU, HV.
  destruct (Rle_dec 0 (vx uv)); [|reflexivity].
  destruct (Rle_dec (vx uv) 1); [|reflexivity].
  destruct (Rle_dec 0 (vy uv)); [|reflexivity].
  destruct (Rle_dec (vy uv) 1); [|reflexivity].
  unfold outside_frame in Hout. lra.
Qed.

Lemma Sample_border_inside (s : sampler_state) image uv :
  AddressU s = Border -> AddressV s = Border ->
  0 <= vx uv <= 1 -> 0 <= vy uv <= 1 ->
  Sample s image uv = image (vx uv) (vy uv).
Proof.
  intros HU HV Hx Hy. unfold Sample, address. rewrite HU, HV.
  destruct (Rle_dec 0 (vx uv)); [|lra].
  destruct (Rle_dec (vx uv) 1); [|lra].
  destruct (Rle_dec 0 (vy uv)); [|lra].
  destruct (Rle_dec (vy uv) 1); [|lra].
  reflexivity.
Qed.

Lemma Sample_clamp (s : sampler_state) image uv :
  AddressU s = Clamp -> AddressV s = Clamp ->
  Sample s image uv = image (clamp (vx uv) 0 1) (clamp (vy uv) 0 1).
Proof. intros HU HV. unfold Sample, address. now rewrite HU, HV. Qed.

Lemma clamp_inside (x lo hi : R) : lo <= x <= hi -> clamp x lo hi = x.
Proof.
  intros H. unfold clamp. rewrite Rmax_left by lra. apply Rmin_left. lra.
Qed.

Lemma clamp_below (x lo hi : R) : x <= lo -> lo <= hi -> clamp x lo hi = lo.
Proof.
  intros H Hlh. unfold clamp. rewrite Rmax_right by lra. apply Rmin_left. lra.
Qed.

Lemma clamp_above (x lo hi : R) : hi <= x -> lo <= hi -> clamp x lo hi = hi.
Proof.
  intros H Hlh. unfold clamp. rewrite Rmax_left by lra. apply Rmin_right. lra.
Qed.

(** C2 (as amended): outside [[0,1]^2] in either axis, the sampler of the
    shader embedded in [film-look-filter.cpp] and the sampler of
    [passthrough.effect] return transparent black (border addressing with
    border color 00000000); the sampler of [data/film_look.effect] uses
    clamp addressing and returns the image at the nearest edge coordinate
    instead. *)
Theorem C2_sampler_policies image uv :
  outside_frame uv ->
  Sample textureSampler image uv = transparent_black /\
  passthrough_mainImage image uv = transparent_black /\
  Sample effect_textureSampler image uv =
    image (clamp (vx uv) 0 1) (clamp (vy uv) 0 1).
Proof.
  intros Hout. split; [|split].
  - now apply Sample_border_outside.
  - unfold passthrough_mainImage. now apply Sample_border_outside.
  - now apply Sample_clamp.
Qed.

Lemma C2_sampler_policies_witness :
  Sample textureSampler opaque_white left_of_frame = transparent_black /\
  passthrough_mainImage opaque_white left_of_frame = transparent_black /\
  Sample effect_textureSampler opaque_white left_of_frame =
    opaque_white (clamp (vx left_of_frame) 0 1) (clamp (vy left_of_frame) 0 1).
Proof.
  apply (C2_sampler_policies opaque_white left_of_frame).
  unfold outside_frame, left_of_frame. simpl. lra.
Defined.

(** C2 fails as stated: the sampler of [data/film_look.effect] returns
    opaque white, not transparent black, at (-0.1, 0.5) on a white image. *)
Lemma C2_effect_file_sampler_clamps :
  outside_frame left_of_frame /\
  Sample effect_textureSampler opaque_white left_of_frame
    = mk4 (mk3 1 1 1) 1 /\
  Sample effect_textureSampler opaque_white left_of_frame
    <> transparent_black.
Proof.
  assert (H : Sample effect_textureSampler opaque_white left_of_frame
              = mk4 (mk3 1 1 1) 1) by reflexivity.
  split; [|split].
  - unfold outside_frame, left_of_frame. simpl. lra.
  - exact H.
  - rewrite H. unfold transparent_black, zero3. intros Heq.
    injection Heq as _ _ _ Ha. lra.
Qed.

(** ** Camera shake *)

Lemma shake_offset_on (u : uniforms) :
  0 < shake_intensity u ->
  let t := elapsed_time u * shake_speed u in
  shake_offset u =
  mk2 (0.5 * (sin (1.3 * t + 0.5) + sin (2.7 * t + 1.2)) * shake_intensity u)
      (0.5 * (cos (1.7 * t - 0.8) + cos (3.1 * t - 0.3)) * shake_intensity u).
Proof.
  intros Hon t. unfold shake_offset. rewrite gtb_true by lra.
  fold t. unfold scale2. simpl.
  rewrite (Rmult_comm t 1.3), (Rmult_comm t 2.7),
          (Rmult_comm t 1.7), (Rmult_comm t 3.1).
  f_equal; ring.
Qed.

(** The shader reads the pixel coordinate only through the shaken
    coordinate: a shaken evaluation at [uv] is the unshaken evaluation at
    [uv + shake_offset]. *)
Lemma film_look_shake fuel s pixel_size_of image u uv :
  film_look fuel s pixel_size_of image u uv =
  film_look fuel s pixel_size_of image (set_shake_intensity u 0)
    (add2 uv (shake_offset u)).
Proof.
  unfold film_look.
  assert (Hs : shaken_uv (set_shake_intensity u 0) (add2 uv (shake_offset u))
               = shaken_uv u uv).
  { rewrite shaken_uv_off by (simpl; lra). reflexivity. }
  rewrite Hs. reflexivity.
Qed.

(** C5: the shake offset is exactly (0,0) when [shake_intensity <= 0];
    otherwise, with [t = elapsed_time * shake_speed], it is
    [0.5 (sin(1.3t + 0.5) + sin(2.7t + 1.2)) shake_intensity] in x and
    [0.5 (cos(1.7t - 0.8) + cos(3.1t - 0.3)) shake_intensity] in y; and the
    rest of the pixel is computed at [base_uv + offset]: the evaluation at
    the pixel center is the evaluation without shake at the center moved by
    the offset. *)
Theorem C5_shake_offset (u : uniforms) :
  (shake_intensity u <= 0 -> shake_offset u = mk2 0 0) /\
  (0 < shake_intensity u ->
   let t := elapsed_time u * shake_speed u in
   shake_offset u =
   mk2 (0.5 * (sin (1.3 * t + 0.5) + sin (2.7 * t + 1.2)) * shake_intensity u)
       (0.5 * (cos (1.7 * t - 0.8) + cos (3.1 * t - 0.3)) * shake_intensity u))
  /\
  (forall uv, shaken_uv u uv = add2 uv (shake_offset u)) /\
  (forall fuel image uv,
     mainImage fuel image u uv =
     mainImage fuel image (set_shake_intensity u 0) (add2 uv (shake_offset u))).
Proof.
  split; [|split; [|split]].
  - intros Hoff. rewrite shake_offset_off by assumption. f_equal; lra.
  - apply shake_offset_on.
  - reflexivity.
  - intros fuel image uv. unfold mainImage. apply film_look_shake.
Qed.

(** ** Color grading *)

Lemma clamp_bounds (x lo hi : R) : lo <= hi -> lo <= clamp x lo hi <= hi.
Proof.
  intros H. unfold clamp, Rmin, Rmax.
  destruct (Rle_dec x lo); destruct (Rle_dec _ hi); lra.
Qed.

Lemma clamp_monotone (x y lo hi : R) :
  x <= y -> clamp x lo hi <= clamp y lo hi.
Proof.
  intros H. unfold clamp, Rmin, Rmax.
  destruct (Rle_dec x lo); destruct (Rle_dec y lo);
    repeat match goal with
           | |- context [Rle_dec ?a ?b] => destruct (Rle_dec a b)
           end; lra.
Qed.

(** The cubic [t^2 (3 - 2t)] grows with [t] on [[0,1]]. *)
Lemma hermite_monotone (s t : R) :
  0 <= s -> s <= t -> t <= 1 ->
  s * s * (3 - 2 * s) <= t * t * (3 - 2 * t).
Proof.
  intros H0 Hst H1.
  assert (Ht : 0 <= t * (1 - t)) by (apply Rmult_le_pos; lra).
  assert (Hs : 0 <= s * (1 - s)) by (apply Rmult_le_pos; lra).
  assert (Hts : 0 <= t * (1 - s)) by (apply Rmult_le_pos; lra).
  assert (Hst' : 0 <= s * (1 - t)) by (apply Rmult_le_pos; lra).
  assert (Hd : 0 <= (t - s) * (2 * (t * (1 - t)) + 2 * (s * (1 - s))
                               + t * (1 - s) + s * (1 - t)))
    by (apply Rmult_le_pos; lra).
  replace (t * t * (3 - 2 * t))
    with (s * s * (3 - 2 * s)
          + (t - s) * (2 * (t * (1 - t)) + 2 * (s * (1 - s))
                       + t * (1 - s) + s * (1 - t))) by ring.
  lra.
Qed.

Lemma hermite_strict (s t : R) :
  0 <= s -> s < t -> t <= 1 ->
  s * s * (3 - 2 * s) < t * t * (3 - 2 * t).
Proof.
  intros H0 Hst H1.
  assert (Ht : 0 <= t * (1 - t)) by (apply Rmult_le_pos; lra).
  assert (Hs : 0 <= s * (1 - s)) by (apply Rmult_le_pos; lra).
  assert (Hts : 0 < t * (1 - s)) by (apply Rmult_lt_0_compat; lra).
  assert (Hst' : 0 <= s * (1 - t)) by (apply Rmult_le_pos; lra).
  assert (Hd : 0 < (t - s) * (2 * (t * (1 - t)) + 2 * (s * (1 - s))
                              + t * (1 - s) + s * (1 - t)))
    by (apply Rmult_lt_0_compat; lra).
  replace (t * t * (3 - 2 * t))
    with (s * s * (3 - 2 * s)
          + (t - s) * (2 * (t * (1 - t)) + 2 * (s * (1 - s))
                       + t * (1 - s) + s * (1 - t))) by ring.
  lra.
Qed.

(** The ratio of the descending ramp of the orange shift. *)
Lemma orange_ratio (luma : R) :
  (luma - 0.4) / (0.0 - 0.4) = 1 - 2.5 * luma.
Proof. lra. Qed.

Lemma smoothstep_orange_shadow (luma : R) :
  luma <= 0 -> smoothstep 0.4 0.0 luma = 1.
Proof.
  intros H. unfold smoothstep. rewrite orange_ratio.
  rewrite clamp_above by lra. lra.
Qed.

Lemma smoothstep_orange_highlight (luma : R) :
  0.4 <= luma -> smoothstep 0.4 0.0 luma = 0.
Proof.
  intros H. unfold smoothstep. rewrite orange_ratio.
  rewrite clamp_below by lra. lra.
Qed.

Lemma smoothstep_orange_ramp (luma : R) :
  0 <= luma <= 0.4 ->
  smoothstep 0.4 0.0 luma =
  (1 - 2.5 * luma) * (1 - 2.5 * luma) * (3 - 2 * (1 - 2.5 * luma)).
Proof.
  intros H. unfold smoothstep. rewrite orange_ratio.
  rewrite clamp_inside by lra. reflexivity.
Qed.

Lemma smoothstep_orange_antitone (l1 l2 : R) :
  l1 <= l2 -> smoothstep 0.4 0.0 l2 <= smoothstep 0.4 0.0 l1.
Proof.
  intros H. unfold smoothstep. rewrite !orange_ratio.
  pose proof (clamp_bounds (1 - 2.5 * l1) 0 1) as B1.
  pose proof (clamp_bounds (1 - 2.5 * l2) 0 1) as B2.
  apply hermite_monotone; try lra.
  apply clamp_monotone. lra.
Qed.

Lemma smoothstep_orange_strict (l1 l2 : R) :
  0 <= l1 -> l1 < l2 -> l2 <= 0.4 ->
  smoothstep 0.4 0.0 l2 < smoothstep 0.4 0.0 l1.
Proof.
  intros H0 H H1. rewrite !smoothstep_orange_ramp by lra.
  apply hermite_strict; lra.
Qed.

Lemma smoothstep_unit (e0 e1 x : R) : 0 <= smoothstep e0 e1 x <= 1.
Proof.
  unfold smoothstep.
  pose proof (clamp_bounds ((x - e0) / (e1 - e0)) 0 1) as B.
  assert (H01 : 0 <= 1) by lra. specialize (B H01).
  set (t := clamp ((x - e0) / (e1 - e0)) 0 1) in *.
  pose proof (hermite_monotone 0 t) as Hlo.
  pose proof (hermite_monotone t 1) as Hhi.
  lra.
Qed.

(** C6: the color grader blends the post-contrast color toward teal and
    then blends that result toward orange (1.0, 0.9, 0.7) with the weight
    [smoothstep(0.4, 0.0, luma) * orange_amount], both weights being taken
    at the one luma [0.299 R + 0.587 G + 0.114 B] of the post-contrast
    color.  The orange weight is [orange_amount] for [luma <= 0], is [0] for
    [luma >= 0.4] and, for a non-negative [orange_amount], never grows with
    luma; it falls strictly on [[0, 0.4]] when [orange_amount] is
    positive. *)
Theorem C6_orange_after_teal (u : uniforms) :
  (forall c : float3,
     let graded := pow3 c (mk3 (contrast u) (contrast u) (contrast u)) in
     let luma := luma_of graded in
     let teal := lerp3 graded (mk3 0.7 0.85 1.0) (teal_weight u luma) in
     color_grade u c = lerp3 teal (mk3 1.0 0.9 0.7) (orange_weight u luma)) /\
  (forall luma, luma <= 0 -> orange_weight u luma = orange_amount u) /\
  (forall luma, 0.4 <= luma -> orange_weight u luma = 0) /\
  (forall l1 l2,
     0 <= orange_amount u -> l1 <= l2 ->
     orange_weight u l2 <= orange_weight u l1) /\
  (forall l1 l2,
     0 < orange_amount u -> 0 <= l1 -> l1 < l2 -> l2 <= 0.4 ->
     orange_weight u l2 < orange_weight u l1).
Proof.
  split; [|split; [|split; [|split]]].
  - intros c graded luma teal. unfold color_grade.
    fold graded.
    replace (dot3 graded luma_weights) with luma
      by (unfold luma, luma_of, dot3, luma_weights; simpl; ring).
    reflexivity.
  - intros luma H. unfold orange_weight.
    rewrite smoothstep_orange_shadow by assumption. lra.
  - intros luma H. unfold orange_weight.
    rewrite smoothstep_orange_highlight by assumption. lra.
  - intros l1 l2 Ha H. unfold orange_weight.
    pose proof (smoothstep_orange_antitone l1 l2 H). nra.
  - intros l1 l2 Ha H0 H H1. unfold orange_weight.
    pose proof (smoothstep_orange_strict l1 l2 H0 H H1). nra.
Qed.

(** ** Loop invariants *)

Lemma for_loop_invariant {S : Type} (P : S -> Prop)
  (body : Z -> S -> result S) (hi : Z) :
  (forall i s s', P s -> body i s = Ok s' -> P s') ->
  forall fuel lo s s',
    P s -> for_loop fuel lo hi body s = Ok s' -> P s'.
Proof.
  intros Hbody. induction fuel as [|fuel IH]; intros lo s s' Hs Hrun;
    simpl in Hrun; [discriminate|].
  destruct (lo <=? hi)%Z.
  - destruct (body lo s) as [s1| |] eqn:Hb; simpl in Hrun; try discriminate.
    apply (IH (incr lo) s1 s'); [|exact Hrun].
    now apply (Hbody lo s s1).
  - now injection Hrun as <-.
Qed.

Lemma for_loop_no_division {S : Type} (body : Z -> S -> result S) (hi : Z) :
  (forall i s, body i s <> DivByZero) ->
  forall fuel lo s, for_loop fuel lo hi body s <> DivByZero.
Proof.
  intros Hbody. induction fuel as [|fuel IH]; intros lo s; simpl;
    [discriminate|].
  destruct (lo <=? hi)%Z; [|discriminate].
  destruct (body lo s) as [s1| |] eqn:Hb; simpl.
  - apply IH.
  - now apply Hbody in Hb.
  - discriminate.
Qed.

Lemma glow_scan_no_division fuel s image u shaken pixel_size :
  glow_scan fuel s image u shaken pixel_size <> DivByZero.
Proof.
  unfold glow_scan. apply for_loop_no_division. intros x st.
  apply for_loop_no_division. intros y st'. discriminate.
Qed.

(** No division of the shader divides by zero once [uv_size] has no zero
    component, whatever the fuel. *)
Lemma mainImage_no_division fuel image u uv :
  frame_size_ok u -> mainImage fuel image u uv <> DivByZero.
Proof.
  intros Hsize. unfold mainImage, film_look.
  rewrite rdiv2_ok by assumption. simpl bind.
  destruct (glow_scan fuel textureSampler image u (shaken_uv u uv)
              (reciprocal_size u)) as [st| |] eqn:Hscan; simpl bind.
  - rewrite !normalize_total. simpl. discriminate.
  - now apply glow_scan_no_division in Hscan.
  - discriminate.
Qed.

(** ** A switched-off effect *)

(** An effect whose gate never opens keeps a zero counter and a zero
    accumulator through the scan, whatever the fuel. *)
Lemma glow_scan_gate_closed fuel s image u shaken pixel_size e st :
  (forall x y, gate u e x y = false) ->
  glow_scan fuel s image u shaken pixel_size = Ok st ->
  sample_count e st = 0 /\ accum e st = zero3.
Proof.
  intros Hoff. unfold glow_scan.
  apply (for_loop_invariant
           (fun st => sample_count e st = 0 /\ accum e st = zero3)).
  - intros x st0 st1 Hst0.
    apply (for_loop_invariant
             (fun st => sample_count e st = 0 /\ accum e st = zero3));
      [|exact Hst0].
    intros y st2 st3 [Hc Ha] Hbody. injection Hbody as <-.
    rewrite scan_body_count, scan_body_accum, Hoff. now split.
  - split; [destruct e; simpl; lra | destruct e; reflexivity].
Qed.

Lemma normalize_zero_count (acc : float3) (count : R) :
  count = 0 -> normalize acc count = Ok acc.
Proof.
  intros ->. unfold normalize. rewrite gtb_false by lra. reflexivity.
Qed.

Lemma composite_off e u mean c : intensity u e <= 0 -> composite e u mean c = c.
Proof.
  intros H. destruct e; simpl in *;
    unfold add_bloom, screen_halation, screen_secondary_glow;
    rewrite gtb_false by lra; reflexivity.
Qed.

Lemma glow_scan_terminates fuel s image u shaken pixel_size :
  loop_in_range u -> enough_fuel fuel u ->
  exists st, glow_scan fuel s image u shaken pixel_size = Ok st.
Proof.
  intros Hm Hfuel. eexists. now apply glow_scan_ok.
Qed.

(** C4: an effect whose intensity is 0 leaves its sample counter at 0 and
    its accumulator at zero through the scan; its normalisation does not
    divide (the division is guarded by [count > 0]) and returns the zero
    accumulator; its step of the compositor leaves the color as it is,
    whatever mean it is given; and the evaluation of the pixel never
    divides by zero.  The scan ends when the loop bound is in range and
    the fuel suffices. *)
Theorem C4_disabled_effect (e : effect) (u : uniforms) :
  intensity u e = 0 ->
  (forall fuel s image shaken pixel_size st,
     glow_scan fuel s image u shaken pixel_size = Ok st ->
     sample_count e st = 0 /\
     accum e st = zero3 /\
     normalize (accum e st) (sample_count e st) = Ok zero3) /\
  (forall mean c, composite e u mean c = c) /\
  (forall fuel s image shaken pixel_size,
     loop_in_range u -> enough_fuel fuel u ->
     exists st, glow_scan fuel s image u shaken pixel_size = Ok st) /\
  (forall fuel image uv,
     frame_size_ok u -> mainImage fuel image u uv <> DivByZero).
Proof.
  intros Hoff. split; [|split; [|split]].
  - intros fuel s image shaken pixel_size st Hscan.
    destruct (glow_scan_gate_closed fuel s image u shaken pixel_size e st)
      as [Hc Ha]; [|exact Hscan|].
    + intros x y. apply gate_intensity_off. lra.
    + split; [exact Hc|]. split; [exact Ha|].
      rewrite Ha. now apply normalize_zero_count.
  - intros mean c. apply composite_off. lra.
  - intros fuel s image shaken pixel_size. apply glow_scan_terminates.
  - intros fuel image uv. apply mainImage_no_division.
Qed.

Lemma C4_disabled_effect_witness :
  (forall fuel s image shaken pixel_size st,
     glow_scan fuel s image bloom_off shaken pixel_size = Ok st ->
     sample_count Bloom st = 0 /\
     accum Bloom st = zero3 /\
     normalize (accum Bloom st) (sample_count Bloom st) = Ok zero3) /\
  (forall mean c, composite Bloom bloom_off mean c = c) /\
  (forall fuel s image shaken pixel_size,
     loop_in_range bloom_off -> enough_fuel fuel bloom_off ->
     exists st, glow_scan fuel s image bloom_off shaken pixel_size = Ok st) /\
  (forall fuel image uv,
     frame_size_ok bloom_off -> mainImage fuel image bloom_off uv <> DivByZero).
Proof.
  apply (C4_disabled_effect Bloom bloom_off). reflexivity.
Defined.

(** ** An effect that is switched on *)

Lemma scan_result_accum_on s image u shaken pixel_size e :
  loop_in_range u -> 0 < intensity u e -> (0 <= radius u e)%Z ->
  accum e (scan_result s image u shaken pixel_size) =
  sum_contributions e s image u shaken pixel_size (square (radius u e)).
Proof.
  intros Hm Hi Hr. unfold scan_result, sum_contributions.
  rewrite scan_list_accum.
  rewrite (gated_fold_on
             (fun a x y => add3 a (contribution e s image u shaken pixel_size x y)))
    by assumption.
  destruct e; reflexivity.
Qed.

Lemma scan_result_count_on s image u shaken pixel_size e :
  loop_in_range u -> 0 < intensity u e -> (0 <= radius u e)%Z ->
  sample_count e (scan_result s image u shaken pixel_size) =
  IZR ((2 * radius u e + 1) ^ 2).
Proof.
  intros Hm Hi Hr. unfold scan_result.
  rewrite scan_list_count.
  rewrite (gated_fold_on (fun c _ _ => c + 1.0)) by assumption.
  rewrite (count_fold (square (radius u e))), square_length by assumption.
  destruct e; simpl; lra.
Qed.

Lemma scan_result_radius_off s image u shaken pixel_size e :
  loop_in_range u -> (radius u e < 0)%Z ->
  sample_count e (scan_result s image u shaken pixel_size) = 0 /\
  accum e (scan_result s image u shaken pixel_size) = zero3.
Proof.
  intros Hm Hr. unfold scan_result.
  rewrite scan_list_count, scan_list_accum.
  rewrite !gated_fold_off.
  - split; [destruct e; simpl; lra | destruct e; reflexivity].
  - intros x y Hx _. apply gate_radius_off; [assumption|].
    now apply (offsets_int_range (max_radius_for_loop u)).
  - intros x y Hx _. apply gate_radius_off; [assumption|].
    now apply (offsets_int_range (max_radius_for_loop u)).
Qed.

Lemma square_count_positive (r : Z) : (0 <= r)%Z -> 0 < IZR ((2 * r + 1) ^ 2).
Proof. intros Hr. apply IZR_lt. nia. Qed.

Lemma normalize_positive_count (acc : float3) (count : R) :
  0 < count -> normalize acc count = Ok (quotient3 acc count).
Proof.
  intros H. rewrite normalize_total. unfold mean_of.
  rewrite gtb_true by lra. reflexivity.
Qed.

(** C10: for an effect with positive intensity and radius [r >= 0], the
    shared scan leaves the counter at [(2r+1)^2] and the accumulator at the
    sum of [weight * (tinted) sample] over the offsets [(x, y)] with
    [|x| <= r] and [|y| <= r], each taken once; the normalisation divides
    that sum by [(2r+1)^2].  The other two effects only enter through the
    loop bound, which has to be in range for the scan to end. *)
Theorem C10_own_square fuel s image u shaken pixel_size e :
  loop_in_range u -> enough_fuel fuel u ->
  0 < intensity u e -> (0 <= radius u e)%Z ->
  let r := radius u e in
  exists st,
    glow_scan fuel s image u shaken pixel_size = Ok st /\
    sample_count e st = IZR ((2 * r + 1) ^ 2) /\
    accum e st = sum_contributions e s image u shaken pixel_size (square r) /\
    normalize (accum e st) (sample_count e st) =
      Ok (quotient3
            (sum_contributions e s image u shaken pixel_size (square r))
            (IZR ((2 * r + 1) ^ 2))) /\
    (forall x y, In (x, y) (square r) <-> (Z.abs x <= r)%Z /\ (Z.abs y <= r)%Z) /\
    NoDup (square r).
Proof.
  intros Hm Hfuel Hi Hr r.
  exists (scan_result s image u shaken pixel_size).
  split; [now apply glow_scan_ok|].
  rewrite scan_result_accum_on, scan_result_count_on by assumption.
  fold r. split; [reflexivity|]. split; [reflexivity|].
  split; [|split].
  - apply normalize_positive_count. now apply square_count_positive.
  - intros x y. apply square_In.
  - apply square_NoDup.
Qed.

Lemma C10_own_square_witness :
  let r := radius default_uniforms Bloom in
  exists st,
    glow_scan 10 textureSampler opaque_white default_uniforms center
      (reciprocal_size default_uniforms) = Ok st /\
    sample_count Bloom st = IZR ((2 * r + 1) ^ 2) /\
    accum Bloom st =
      sum_contributions Bloom textureSampler opaque_white default_uniforms
        center (reciprocal_size default_uniforms) (square r) /\
    normalize (accum Bloom st) (sample_count Bloom st) =
      Ok (quotient3
            (sum_contributions Bloom textureSampler opaque_white
               default_uniforms center (reciprocal_size default_uniforms)
               (square r))
            (IZR ((2 * r + 1) ^ 2))) /\
    (forall x y, In (x, y) (square r) <-> (Z.abs x <= r)%Z /\ (Z.abs y <= r)%Z) /\
    NoDup (square r).
Proof.
  apply (C10_own_square 10 textureSampler opaque_white default_uniforms
           center (reciprocal_size default_uniforms) Bloom).
  - unfold loop_in_range. vm_compute. split; reflexivity.
  - unfold enough_fuel. vm_compute. lia.
  - simpl. lra.
  - simpl. lia.
Defined.

(** ** A uniform neighborhood *)

Lemma sum_of_constant {B : Type} (f : B -> float3) (k : float3) (l : list B) :
  (forall b, In b l -> f b = k) ->
  forall acc,
    fold_left (fun a b => add3 a (f b)) l acc =
    add3 acc (scale3 k (INR (length l))).
Proof.
  induction l as [|b l IH]; intros Hk acc.
  - simpl. destruct acc as [r g bl]. unfold add3, scale3. simpl.
    f_equal; lra.
  - simpl fold_left. rewrite IH by (intros b' Hb'; apply Hk; now right).
    rewrite (Hk b) by now left.
    change (length (b :: l)) with (S (length l)). rewrite S_INR.
    destruct acc as [r g bl]. unfold add3, scale3. simpl.
    f_equal; lra.
Qed.

Lemma quotient_of_multiple (k : float3) (n : R) :
  0 < n -> quotient3 (add3 zero3 (scale3 k n)) n = k.
Proof.
  intros Hn. destruct k as [r g b]. unfold quotient3, add3, scale3, zero3.
  simpl. f_equal; field; lra.
Qed.

Lemma contribution_uniform e s image u shaken pixel_size x y c :
  rgb (Sample s image (sample_uv shaken pixel_size x y)) = c ->
  contribution e s image u shaken pixel_size x y =
  scale3 (tinted e c) (smoothstep (threshold u e) 1 (luma_of c)).
Proof.
  intros Hc. unfold contribution. rewrite Hc.
  replace (dot3 c luma_weights) with (luma_of c)
    by (unfold luma_of, dot3, luma_weights; simpl; ring).
  replace 1.0 with 1 by lra. reflexivity.
Qed.

Lemma uniform_mean s image u shaken pixel_size e c :
  loop_in_range u -> 0 < intensity u e -> (0 <= radius u e)%Z ->
  uniform_around s image shaken pixel_size (radius u e) c ->
  let st := scan_result s image u shaken pixel_size in
  normalize (accum e st) (sample_count e st) =
  Ok (scale3 (tinted e c) (smoothstep (threshold u e) 1 (luma_of c))).
Proof.
  intros Hm Hi Hr Hc st. unfold st.
  rewrite scan_result_accum_on, scan_result_count_on by assumption.
  rewrite normalize_positive_count by now apply square_count_positive.
  f_equal. unfold sum_contributions.
  rewrite (sum_of_constant _
             (scale3 (tinted e c) (smoothstep (threshold u e) 1 (luma_of c)))).
  - rewrite square_length by assumption.
    apply quotient_of_multiple. now apply square_count_positive.
  - intros [x y] Hin. apply square_In in Hin. destruct Hin as [Hx Hy].
    apply contribution_uniform. now apply Hc.
Qed.

(** C8: where every sample of an effect's square has the one color [c]
    (a uniform image away from the border), an effect with positive
    intensity and radius [r >= 0] has the normalised mean
    [smoothstep(threshold, 1, luma(c)) * c], with [c] multiplied by
    (1.0, 0.2, 0.1) for halation and by (0.6, 0.8, 1.0) for secondary glow
    and taken as it is for bloom; the radius does not enter the result. *)
Theorem C8_uniform_mean fuel s image u shaken pixel_size e c :
  loop_in_range u -> enough_fuel fuel u ->
  0 < intensity u e -> (0 <= radius u e)%Z ->
  uniform_around s image shaken pixel_size (radius u e) c ->
  (exists st,
     glow_scan fuel s image u shaken pixel_size = Ok st /\
     normalize (accum e st) (sample_count e st) =
       Ok (scale3 (tinted e c) (smoothstep (threshold u e) 1 (luma_of c)))) /\
  tinted Bloom c = c /\
  tinted Halation c = mk3 (cr c * 1.0) (cg c * 0.2) (cb c * 0.1) /\
  tinted SecondaryGlow c = mk3 (cr c * 0.6) (cg c * 0.8) (cb c * 1.0).
Proof.
  intros Hm Hfuel Hi Hr Hc. split; [|repeat split].
  exists (scan_result s image u shaken pixel_size).
  split; [now apply glow_scan_ok | now apply uniform_mean].
Qed.

Lemma white_around_center :
  uniform_around textureSampler opaque_white center
    (reciprocal_size default_uniforms) 2 (mk3 1 1 1).
Proof.
  intros x y Hx Hy.
  rewrite Sample_border_inside; try reflexivity.
  - unfold sample_uv, reciprocal_size, default_uniforms, center. simpl.
    assert (IZR (-2) <= IZR x <= IZR 2) by (split; apply IZR_le; lia).
    lra.
  - unfold sample_uv, reciprocal_size, default_uniforms, center. simpl.
    assert (IZR (-2) <= IZR y <= IZR 2) by (split; apply IZR_le; lia).
    lra.
Qed.

Lemma C8_uniform_mean_witness :
  (exists st,
     glow_scan 10 textureSampler opaque_white default_uniforms center
       (reciprocal_size default_uniforms) = Ok st /\
     normalize (accum Bloom st) (sample_count Bloom st) =
       Ok (scale3 (tinted Bloom (mk3 1 1 1))
             (smoothstep (threshold default_uniforms Bloom) 1
                (luma_of (mk3 1 1 1))))) /\
  tinted Bloom (mk3 1 1 1) = mk3 1 1 1 /\
  tinted Halation (mk3 1 1 1) = mk3 (1 * 1.0) (1 * 0.2) (1 * 0.1) /\
  tinted SecondaryGlow (mk3 1 1 1) = mk3 (1 * 0.6) (1 * 0.8) (1 * 1.0).
Proof.
  apply (C8_uniform_mean 10 textureSampler opaque_white default_uniforms
           center (reciprocal_size default_uniforms) Bloom (mk3 1 1 1)).
  - unfold loop_in_range. vm_compute. split; reflexivity.
  - unfold enough_fuel. vm_compute. lia.
  - simpl. lra.
  - simpl. lia.
  - exact white_around_center.
Defined.

(** ** The no-op configuration *)

Lemma pow_one (x : R) : 0 <= x -> pow x 1 = x.
Proof.
  intros H. unfold pow. destruct (Rlt_dec 0 x) as [Hpos|Hnpos].
  - now apply Rpower_1.
  - lra.
Qed.

Lemma lerp_weight_zero (a b s w : R) : w = 0 -> lerp a b (s * w) = a.
Proof. intros ->. unfold lerp. ring. Qed.

Lemma color_grade_identity (u : uniforms) (c : float3) :
  contrast u = 1 -> teal_amount u = 0 -> orange_amount u = 0 ->
  0 <= cr c -> 0 <= cg c -> 0 <= cb c ->
  color_grade u c = c.
Proof.
  intros Hc Ht Ho Hr Hg Hb. unfold color_grade, pow3, lerp3. simpl.
  rewrite Hc, !pow_one by assumption.
  rewrite !lerp_weight_zero by assumption.
  now destruct c.
Qed.

Lemma add_grain_off (u : uniforms) (shaken : float2) (c : float3) :
  grain_intensity u = 0 -> add_grain u shaken c = c.
Proof.
  intros H. unfold add_grain, adds3. rewrite H.
  destruct c as [r g b]. simpl. f_equal; ring.
Qed.

Lemma clamp3_unit (c : float3) : unit_color c -> clamp3 c 0.0 1.0 = c.
Proof.
  intros (Hr & Hg & Hb). unfold clamp3.
  rewrite !clamp_inside by lra. now destruct c.
Qed.

Lemma Sample_unit (s : sampler_state) image uv :
  unit_image image -> unit_color (rgb (BorderColor s)) ->
  unit_color (rgb (Sample s image uv)).
Proof.
  intros Himg Hb. unfold Sample.
  destruct (address (AddressU s) (vx uv)); [|exact Hb].
  destruct (address (AddressV s) (vy uv)); [apply Himg | exact Hb].
Qed.

Lemma transparent_black_unit : unit_color (rgb transparent_black).
Proof. unfold unit_color, transparent_black, zero3. simpl. lra. Qed.

(** In the no-op configuration a returned pixel is the sample at the pixel
    coordinate, whatever the scan accumulated and whatever the fuel. *)
Lemma film_look_noop fuel s pixel_size_of image u uv out :
  noop_config u -> unit_color (rgb (Sample s image uv)) ->
  film_look fuel s pixel_size_of image u uv = Ok out ->
  out = Sample s image uv.
Proof.
  intros (Ht & Ho & Hb & Hh & Hg & Hgr & Hs & Hc) Hunit H.
  unfold film_look in H. rewrite shaken_uv_off in H by lra.
  destruct (pixel_size_of (uv_size u)) as [ps| |]; simpl in H; try discriminate.
  destruct (glow_scan fuel s image u uv ps) as [st| |];
    simpl in H; try discriminate.
  rewrite !normalize_total in H. simpl in H. injection H as <-.
  rewrite add_grain_off by assumption.
  rewrite (composite_off SecondaryGlow : forall u m c, _ -> screen_secondary_glow u m c = c)
    by (simpl; lra).
  rewrite (composite_off Halation : forall u m c, _ -> screen_halation u m c = c)
    by (simpl; lra).
  rewrite (composite_off Bloom : forall u m c, _ -> add_bloom u m c = c)
    by (simpl; lra).
  rewrite color_grade_identity; try assumption; try apply Hunit.
  rewrite clamp3_unit by assumption.
  now destruct (Sample s image uv).
Qed.

(** C7: with teal and orange amounts, the three glow intensities, the
    grain intensity and the shake intensity all 0 and contrast 1, on an
    image whose color channels lie in [[0,1]], the output pixel is the
    input sampled at the pixel coordinate, color and alpha alike, whatever
    [elapsed_time] is.  This holds of every pixel an evaluation returns,
    and the evaluation returns that pixel when the loop bound is in range,
    the fuel suffices and [uv_size] has no zero component. *)
Theorem C7_noop_configuration fuel image u uv :
  noop_config u -> unit_image image ->
  (forall out,
     mainImage fuel image u uv = Ok out ->
     out = Sample textureSampler image uv) /\
  (loop_in_range u -> enough_fuel fuel u -> frame_size_ok u ->
   mainImage fuel image u uv = Ok (Sample textureSampler image uv)).
Proof.
  intros Hnoop Himg.
  pose proof (Sample_unit textureSampler image uv Himg transparent_black_unit)
    as Hunit.
  split.
  - intros out Hout. unfold mainImage in Hout.
    now apply film_look_noop in Hout.
  - intros Hm Hfuel Hsize.
    destruct (mainImage fuel image u uv) as [out| |] eqn:Hrun.
    + f_equal. unfold mainImage in Hrun. now apply film_look_noop in Hrun.
    + rewrite mainImage_run in Hrun by assumption. discriminate.
    + rewrite mainImage_run in Hrun by assumption. discriminate.
Qed.

Lemma opaque_white_unit : unit_image opaque_white.
Proof. intros a b. unfold unit_color, opaque_white. simpl. lra. Qed.

Lemma noop_uniforms_noop (time : R) : noop_config (noop_uniforms time).
Proof. unfold noop_config, noop_uniforms. simpl. repeat split; reflexivity. Qed.

Lemma C7_noop_configuration_witness :
  (forall out,
     mainImage 10 opaque_white (noop_uniforms 7.5) center = Ok out ->
     out = Sample textureSampler opaque_white center) /\
  mainImage 10 opaque_white (noop_uniforms 7.5) center =
  Ok (Sample textureSampler opaque_white center).
Proof.
  destruct (C7_noop_configuration 10 opaque_white (noop_uniforms 7.5) center
              (noop_uniforms_noop 7.5) opaque_white_unit) as [Hany Hruns].
  split; [exact Hany|].
  apply Hruns.
  - unfold loop_in_range. vm_compute. split; reflexivity.
  - unfold enough_fuel. vm_compute. lia.
  - unfold frame_size_ok. simpl. split; lra.
Defined.

(** ** A negative radius *)

Lemma composite_zero_mean e u c : composite e u zero3 c = c.
Proof.
  destruct c as [r g b].
  destruct e; simpl;
    unfold add_bloom, screen_halation, screen_secondary_glow;
    match goal with |- context [gtb ?a ?b] => destruct (gtb a b) end;
    try reflexivity;
    unfold BlendScreen, add3, scale3, rsub3, mul3, zero3; simpl;
    f_equal; lra.
Qed.

(** ** Evaluating the bloom-only settings *)

Lemma uniform_accum s image u shaken pixel_size e c :
  loop_in_range u -> 0 < intensity u e -> (0 <= radius u e)%Z ->
  uniform_around s image shaken pixel_size (radius u e) c ->
  accum e (scan_result s image u shaken pixel_size) =
  scale3 (scale3 (tinted e c) (smoothstep (threshold u e) 1 (luma_of c)))
         (IZR ((2 * radius u e + 1) ^ 2)).
Proof.
  intros Hm Hi Hr Hc.
  rewrite scan_result_accum_on by assumption. unfold sum_contributions.
  rewrite (sum_of_constant _
             (scale3 (tinted e c) (smoothstep (threshold u e) 1 (luma_of c)))).
  - rewrite square_length by assumption.
    unfold add3, scale3, zero3. simpl. f_equal; lra.
  - intros [x y] Hin. apply square_In in Hin. destruct Hin as [Hx Hy].
    apply contribution_uniform. now apply Hc.
Qed.

Lemma uniform_mean_of s image u shaken pixel_size e c :
  loop_in_range u -> 0 < intensity u e -> (0 <= radius u e)%Z ->
  uniform_around s image shaken pixel_size (radius u e) c ->
  let st := scan_result s image u shaken pixel_size in
  mean_of (accum e st) (sample_count e st) =
  scale3 (tinted e c) (smoothstep (threshold u e) 1 (luma_of c)).
Proof.
  intros Hm Hi Hr Hc st.
  pose proof (uniform_mean s image u shaken pixel_size e c Hm Hi Hr Hc) as H.
  simpl in H. rewrite normalize_total in H. now injection H.
Qed.

Lemma gray_band_inside (a b : R) : 0.2 <= a <= 0.8 -> gray_band a b = mk4 gray 1.
Proof.
  intros H. unfold gray_band.
  destruct (Rle_dec 0.2 a); [|lra]. destruct (Rle_dec a 0.8); [reflexivity | lra].
Qed.

Lemma gray_band_outside (a b : R) :
  a < 0.2 \/ 0.8 < a -> gray_band a b = mk4 zero3 1.
Proof.
  intros H. unfold gray_band.
  destruct (Rle_dec 0.2 a); [|reflexivity].
  destruct (Rle_dec a 0.8); [lra | reflexivity].
Qed.

Lemma gray_band_center : Sample textureSampler gray_band center = mk4 gray 1.
Proof.
  rewrite Sample_border_inside; try reflexivity;
    try (unfold center; simpl; lra).
  apply gray_band_inside. unfold center. simpl. lra.
Qed.

Lemma gray_unit : unit_color gray.
Proof. unfold unit_color, gray. simpl. lra. Qed.

Lemma luma_of_gray : luma_of gray = 0.5.
Proof. unfold luma_of, gray. simpl. lra. Qed.

Lemma smoothstep_half : smoothstep 0 1 0.5 = 0.5.
Proof.
  unfold smoothstep. replace ((0.5 - 0) / (1 - 0)) with 0.5 by lra.
  rewrite clamp_inside by lra. lra.
Qed.

(** What bloom adds for one gray sample at threshold 0. *)
Lemma gray_bloom_weighted :
  scale3 (tinted Bloom gray) (smoothstep 0 1 (luma_of gray))
  = mk3 0.25 0.25 0.25.
Proof.
  rewrite luma_of_gray, smoothstep_half. unfold scale3, tinted, gray. simpl.
  f_equal; lra.
Qed.

(** With bloom alone, the pixel is the sample plus the bloom mean,
    clamped. *)
Lemma shade_bloom_only s image r size uv pixel_size :
  unit_color (rgb (Sample s image uv)) ->
  let u := bloom_only r size in
  let st := scan_result s image u uv pixel_size in
  shade s image u uv pixel_size =
  mk4 (clamp3 (add3 (rgb (Sample s image uv))
                 (mean_of (bloom_accum st) (bloom_sample_count st)))
         0.0 1.0)
      (alpha (Sample s image uv)).
Proof.
  intros Hunit u st. unfold shade, final_color_of.
  rewrite shaken_uv_off by (simpl; lra). fold st.
  rewrite add_grain_off by reflexivity.
  rewrite (composite_off SecondaryGlow u : forall m c, _ -> screen_secondary_glow u m c = c)
    by (simpl; lra).
  rewrite (composite_off Halation u : forall m c, _ -> screen_halation u m c = c)
    by (simpl; lra).
  rewrite color_grade_identity; try reflexivity; try apply Hunit.
  unfold add_bloom. rewrite gtb_true by (simpl; lra).
  do 3 f_equal. unfold scale3. simpl.
  destruct (mean_of (bloom_accum st) (bloom_sample_count st)) as [mr mg mb].
  simpl. f_equal; lra.
Qed.

Lemma bloom_only_in_range (r : Z) (size : float2) :
  (0 <= r < int_max)%Z -> loop_in_range (bloom_only r size).
Proof.
  intros Hr. unfold loop_in_range, max_radius_for_loop, imax. simpl.
  unfold int_min, int_max in *. lia.
Qed.

Lemma gray_around_center_cpp (r : Z) :
  (0 <= r <= 1)%Z ->
  uniform_around textureSampler gray_band center (mk2 (1.0 / 4) (1.0 / 4))
    r gray.
Proof.
  intros Hr x y Hx Hy.
  assert (IZR (-1) <= IZR x <= IZR 1) by (split; apply IZR_le; lia).
  assert (IZR (-1) <= IZR y <= IZR 1) by (split; apply IZR_le; lia).
  rewrite Sample_border_inside; try reflexivity;
    try (unfold sample_uv, center; simpl; lra).
  rewrite gray_band_inside; [reflexivity|].
  unfold sample_uv, center. simpl. lra.
Qed.

(** The radius 0 passes the cutoff at the offset (0, 0): bloom at radius 0
    counts and accumulates the center sample, and lifts a mid-gray pixel
    from 0.5 to 0.75. *)
Lemma radius_zero_contributes :
  let u := bloom_only 0 (mk2 4 4) in
  (radius u Bloom <= 0)%Z /\
  (exists st,
     glow_scan 2 textureSampler gray_band u center (reciprocal_size u) = Ok st /\
     sample_count Bloom st = 1 /\
     accum Bloom st = mk3 0.25 0.25 0.25 /\
     normalize (accum Bloom st) (sample_count Bloom st)
       = Ok (mk3 0.25 0.25 0.25)) /\
  color_grade u (rgb (Sample textureSampler gray_band center)) = gray /\
  mainImage 2 gray_band u center = Ok (mk4 (mk3 0.75 0.75 0.75) 1).
Proof.
  intros u.
  assert (Hm : loop_in_range u)
    by (apply bloom_only_in_range; unfold int_max; lia).
  assert (Hfuel : enough_fuel 2 u) by (unfold enough_fuel; vm_compute; lia).
  assert (Hi : 0 < intensity u Bloom) by (simpl; lra).
  assert (Hr : (0 <= radius u Bloom)%Z) by (simpl; lia).
  assert (Hc : uniform_around textureSampler gray_band center
                 (reciprocal_size u) (radius u Bloom) gray)
    by (apply (gray_around_center_cpp 0); lia).
  set (st := scan_result textureSampler gray_band u center (reciprocal_size u)).
  assert (Hcount : sample_count Bloom st = 1).
  { unfold st. rewrite scan_result_count_on by assumption.
    change ((2 * radius u Bloom + 1) ^ 2)%Z with 1%Z. reflexivity. }
  assert (Hacc : accum Bloom st = mk3 0.25 0.25 0.25).
  { unfold st. rewrite (uniform_accum _ _ _ _ _ Bloom gray) by assumption.
    change (threshold u Bloom) with 0. rewrite gray_bloom_weighted.
    change ((2 * radius u Bloom + 1) ^ 2)%Z with 1%Z.
    unfold scale3. simpl. f_equal; lra. }
  assert (Hmean : mean_of (accum Bloom st) (sample_count Bloom st)
                  = mk3 0.25 0.25 0.25).
  { rewrite <- gray_bloom_weighted.
    apply (uniform_mean_of textureSampler gray_band u center
             (reciprocal_size u) Bloom gray Hm Hi Hr Hc). }
  split; [simpl; lia|]. split; [|split].
  - exists st.
    split; [now apply glow_scan_ok|].
    split; [exact Hcount|]. split; [exact Hacc|].
    rewrite normalize_total. f_equal. exact Hmean.
  - rewrite gray_band_center. apply color_grade_identity;
      try reflexivity; unfold gray; simpl; lra.
  - rewrite mainImage_run;
      [|assumption|assumption|unfold frame_size_ok; simpl; split; lra].
    f_equal. unfold u. rewrite shade_bloom_only
      by (rewrite gray_band_center; apply gray_unit).
    fold u. fold st.
    change (bloom_accum st) with (accum Bloom st).
    change (bloom_sample_count st) with (sample_count Bloom st).
    rewrite Hmean, gray_band_center. simpl.
    unfold clamp3, add3, gray. simpl.
    f_equal. f_equal; rewrite clamp_inside; lra.
Qed.

(** ** The two variants of the shader *)

Lemma Sample_variants_in_frame image uv :
  in_frame uv ->
  Sample effect_textureSampler image uv = Sample textureSampler image uv.
Proof.
  intros [Hx Hy].
  rewrite Sample_clamp, Sample_border_inside by (reflexivity || assumption).
  now rewrite !clamp_inside.
Qed.

Lemma scan_body_ext s1 s2 image u shaken pixel_size x y st :
  Sample s1 image (sample_uv shaken pixel_size x y) =
  Sample s2 image (sample_uv shaken pixel_size x y) ->
  scan_body s1 image u shaken pixel_size x y st =
  scan_body s2 image u shaken pixel_size x y st.
Proof. intros H. unfold scan_body. now rewrite H. Qed.

Lemma scan_list_ext s1 s2 image u shaken pixel_size xs ys st :
  (forall x y, In x xs -> In y ys ->
     Sample s1 image (sample_uv shaken pixel_size x y) =
     Sample s2 image (sample_uv shaken pixel_size x y)) ->
  scan_list s1 image u shaken pixel_size xs ys st =
  scan_list s2 image u shaken pixel_size xs ys st.
Proof.
  intros H. unfold scan_list.
  apply fold_left_ext_in. intros st1 x Hx.
  apply fold_left_ext_in. intros st2 y Hy.
  apply scan_body_ext. now apply H.
Qed.

(** The finished pixel depends on the sampler only through the samples it
    takes: the one at the shaken coordinate and those of the scan. *)
Lemma shade_ext s1 s2 image u uv pixel_size :
  Sample s1 image (shaken_uv u uv) = Sample s2 image (shaken_uv u uv) ->
  (forall x y,
     (Z.abs x <= max_radius_for_loop u)%Z ->
     (Z.abs y <= max_radius_for_loop u)%Z ->
     Sample s1 image (sample_uv (shaken_uv u uv) pixel_size x y) =
     Sample s2 image (sample_uv (shaken_uv u uv) pixel_size x y)) ->
  shade s1 image u uv pixel_size = shade s2 image u uv pixel_size.
Proof.
  intros H0 H. unfold shade, final_color_of, scan_result.
  rewrite H0.
  rewrite (scan_list_ext s1 s2); [reflexivity|].
  intros x y Hx Hy. apply H; now apply offsets_In.
Qed.

(** C3 (as amended): the two variants do not agree on the same uniforms.
    The shader of [data/film_look.effect] steps by [pixel_size = uv_size]
    and samples with clamp addressing; the shader embedded in
    [film-look-filter.cpp] steps by [1.0 / uv_size] and samples with border
    addressing.  They return the same pixel when the effect file's
    [uv_size] is the reciprocal of the embedded shader's and the shaken
    coordinate and every scanned sample coordinate lie within [[0,1]^2]. *)
Theorem C3_variants_agree_in_frame fuel image u uv :
  loop_in_range u -> enough_fuel fuel u -> frame_size_ok u ->
  in_frame (shaken_uv u uv) ->
  (forall x y,
     (Z.abs x <= max_radius_for_loop u)%Z ->
     (Z.abs y <= max_radius_for_loop u)%Z ->
     in_frame (sample_uv (shaken_uv u uv) (reciprocal_size u) x y)) ->
  pixel_shader fuel image (set_uv_size u (reciprocal_size u)) uv =
  mainImage fuel image u uv.
Proof.
  intros Hm Hfuel Hsize H0 H.
  rewrite mainImage_run by assumption.
  rewrite pixel_shader_run by assumption.
  f_equal.
  change (shade effect_textureSampler image
            (set_uv_size u (reciprocal_size u)) uv
            (uv_size (set_uv_size u (reciprocal_size u))))
    with (shade effect_textureSampler image u uv (reciprocal_size u)).
  apply shade_ext.
  - now apply Sample_variants_in_frame.
  - intros x y Hx Hy. apply Sample_variants_in_frame. now apply H.
Qed.

Lemma C3_variants_agree_in_frame_witness :
  pixel_shader 4 gray_band
    (set_uv_size (bloom_only 1 (mk2 4 4))
       (reciprocal_size (bloom_only 1 (mk2 4 4)))) center =
  mainImage 4 gray_band (bloom_only 1 (mk2 4 4)) center.
Proof.
  apply (C3_variants_agree_in_frame 4 gray_band (bloom_only 1 (mk2 4 4))
           center).
  - unfold loop_in_range. vm_compute. split; reflexivity.
  - unfold enough_fuel. vm_compute. lia.
  - unfold frame_size_ok. simpl. split; lra.
  - rewrite shaken_uv_off by (simpl; lra).
    unfold in_frame, center. simpl. lra.
  - intros x y Hx Hy. rewrite shaken_uv_off by (simpl; lra).
    change (max_radius_for_loop (bloom_only 1 (mk2 4 4))) with 1%Z in Hx, Hy.
    assert (IZR (-1) <= IZR x <= IZR 1) by (split; apply IZR_le; lia).
    assert (IZR (-1) <= IZR y <= IZR 1) by (split; apply IZR_le; lia).
    unfold in_frame, sample_uv, reciprocal_size, center. simpl. lra.
Defined.

Lemma sum_ext {B : Type} (f g : B -> float3) (l : list B) :
  (forall b, In b l -> f b = g b) ->
  forall acc,
    fold_left (fun a b => add3 a (f b)) l acc =
    fold_left (fun a b => add3 a (g b)) l acc.
Proof.
  induction l as [|b l IH]; intros Hfg acc; simpl; [reflexivity|].
  rewrite (Hfg b) by now left.
  apply IH. intros b' Hb'. apply Hfg. now right.
Qed.

(** With [pixel_size = (4, 4)] and clamp addressing, only the column
    [x = 0] of the scan reads the gray band; the columns beside it read
    the black edges of the image. *)
Lemma effect_contribution (x y : Z) :
  contribution Bloom effect_textureSampler gray_band
    (bloom_only 1 (mk2 4 4)) center (mk2 4 4) x y =
  if (x =? 0)%Z then mk3 0.25 0.25 0.25 else zero3.
Proof.
  destruct (Z.eqb_spec x 0) as [->|Hx].
  - rewrite (contribution_uniform _ _ _ _ _ _ _ _ gray).
    + apply gray_bloom_weighted.
    + rewrite Sample_clamp by reflexivity.
      unfold sample_uv, center. simpl.
      rewrite gray_band_inside; [reflexivity|].
      rewrite clamp_inside; lra.
  - rewrite (contribution_uniform _ _ _ _ _ _ _ _ zero3).
    + unfold scale3, tinted, zero3. simpl. f_equal; lra.
    + rewrite Sample_clamp by reflexivity.
      unfold sample_uv, center. simpl.
      rewrite gray_band_outside; [reflexivity|].
      destruct (Z_lt_le_dec x 0) as [Hneg|Hpos].
      * left. assert (IZR x <= IZR (-1)) by (apply IZR_le; lia).
        rewrite clamp_below; lra.
      * right. assert (IZR 1 <= IZR x) by (apply IZR_le; lia).
        rewrite clamp_above; lra.
Qed.

Lemma effect_gray_center :
  Sample effect_textureSampler gray_band center = mk4 gray 1.
Proof.
  rewrite Sample_variants_in_frame by (unfold in_frame, center; simpl; lra).
  apply gray_band_center.
Qed.

(** C3 fails as stated: with bloom alone at radius 1 on a 4 x 4 frame, at
    the center of an image that is mid-gray in a vertical band and black
    beside it, the embedded shader returns the gray level 0.75 and the
    shader of [data/film_look.effect] returns 7/12. *)
Lemma C3_variants_differ :
  let u := bloom_only 1 (mk2 4 4) in
  mainImage 4 gray_band u center = Ok (mk4 (mk3 0.75 0.75 0.75) 1) /\
  pixel_shader 4 gray_band u center
    = Ok (mk4 (mk3 (7 / 12) (7 / 12) (7 / 12)) 1) /\
  mainImage 4 gray_band u center <> pixel_shader 4 gray_band u center.
Proof.
  intros u.
  assert (Hm : loop_in_range u)
    by (apply bloom_only_in_range; unfold int_max; lia).
  assert (Hfuel : enough_fuel 4 u) by (unfold enough_fuel; vm_compute; lia).
  assert (Hi : 0 < intensity u Bloom) by (simpl; lra).
  assert (Hr : (0 <= radius u Bloom)%Z) by (simpl; lia).
  assert (Hcpp : mainImage 4 gray_band u center
                 = Ok (mk4 (mk3 0.75 0.75 0.75) 1)).
  { rewrite mainImage_run;
      [|assumption|assumption|unfold frame_size_ok; simpl; split; lra].
    f_equal. unfold u. rewrite shade_bloom_only
      by (rewrite gray_band_center; apply gray_unit).
    fold u.
    set (st := scan_result textureSampler gray_band u center
                 (reciprocal_size u)).
    change (bloom_accum st) with (accum Bloom st).
    change (bloom_sample_count st) with (sample_count Bloom st).
    assert (Hmean : mean_of (accum Bloom st) (sample_count Bloom st)
                    = mk3 0.25 0.25 0.25).
    { rewrite <- gray_bloom_weighted.
      apply (uniform_mean_of textureSampler gray_band u center
               (reciprocal_size u) Bloom gray Hm Hi Hr).
      apply (gray_around_center_cpp 1). lia. }
    rewrite Hmean, gray_band_center. simpl.
    unfold clamp3, add3, gray. simpl.
    f_equal. f_equal; rewrite clamp_inside; lra. }
  assert (Heff : pixel_shader 4 gray_band u center
                 = Ok (mk4 (mk3 (7 / 12) (7 / 12) (7 / 12)) 1)).
  { rewrite pixel_shader_run by assumption.
    f_equal. unfold u. rewrite shade_bloom_only
      by (rewrite effect_gray_center; apply gray_unit).
    fold u. change (uv_size u) with (mk2 4 4).
    set (st := scan_result effect_textureSampler gray_band u center (mk2 4 4)).
    change (bloom_accum st) with (accum Bloom st).
    change (bloom_sample_count st) with (sample_count Bloom st).
    assert (Hcount : sample_count Bloom st = 9).
    { unfold st. rewrite scan_result_count_on by assumption.
      change ((2 * radius u Bloom + 1) ^ 2)%Z with 9%Z. reflexivity. }
    assert (Hacc : accum Bloom st = mk3 0.75 0.75 0.75).
    { unfold st. rewrite scan_result_accum_on by assumption.
      unfold sum_contributions.
      rewrite (sum_ext _
        (fun xy => if (fst xy =? 0)%Z then mk3 0.25 0.25 0.25 else zero3))
        by (intros [x y] _; apply effect_contribution).
      change (square (radius u Bloom))
        with [(-1, -1); (-1, 0); (-1, 1); (0, -1); (0, 0); (0, 1);
              (1, -1); (1, 0); (1, 1)]%Z.
      unfold add3, zero3. simpl. f_equal; lra. }
    rewrite Hcount, Hacc, effect_gray_center.
    unfold mean_of. rewrite gtb_true by lra.
    unfold clamp3, add3, gray. simpl.
    f_equal. f_equal; rewrite clamp_inside; lra. }
  split; [exact Hcpp|]. split; [exact Heff|].
  rewrite Hcpp, Heff. intros Heq. injection Heq as Heq _ _. lra.
Qed.

(** ** Further properties of the shader *)

(** Every color channel of a returned pixel lies in [[0,1]]: the final
    clamp is the last operation on the color. *)
Theorem output_color_clamped fuel image u uv out :
  mainImage fuel image u uv = Ok out -> unit_color (rgb out).
Proof.
  unfold mainImage, film_look. intros H.
  destruct (rdiv2 1.0 (uv_size u)) as [ps| |]; simpl in H; try discriminate.
  destruct (glow_scan fuel textureSampler image u (shaken_uv u uv) ps)
    as [st| |]; simpl in H; try discriminate.
  rewrite !normalize_total in H. simpl in H. injection H as <-.
  unfold unit_color, clamp3. simpl.
  assert (Hc : forall x, 0 <= clamp x 0.0 1.0 <= 1)
    by (intros x; pose proof (clamp_bounds x 0.0 1.0); lra).
  split; [apply Hc | split; apply Hc].
Qed.

Lemma output_color_clamped_witness :
  unit_color
    (rgb (shade textureSampler opaque_white default_uniforms center
            (reciprocal_size default_uniforms))).
Proof.
  apply (output_color_clamped 10 opaque_white default_uniforms center).
  apply mainImage_run.
  - unfold loop_in_range. vm_compute. split; reflexivity.
  - unfold enough_fuel. vm_compute. lia.
  - unfold frame_size_ok. simpl. split; lra.
Defined.

(** Each component of the shake offset is bounded by [shake_intensity]
    (and is 0 when [shake_intensity <= 0]). *)
Theorem shake_offset_bounded (u : uniforms) :
  Rabs (vx (shake_offset u)) <= Rmax 0 (shake_intensity u) /\
  Rabs (vy (shake_offset u)) <= Rmax 0 (shake_intensity u).
Proof.
  unfold shake_offset, gtb.
  destruct (Rlt_dec 0.0 (shake_intensity u)) as [Hon|Hoff].
  - rewrite Rmax_right by lra. unfold scale2. simpl.
    set (t := elapsed_time u * shake_speed u).
    pose proof (SIN_bound (t * 1.3 + 0.5)) as S1.
    pose proof (SIN_bound (t * 2.7 + 1.2)) as S2.
    pose proof (COS_bound (t * 1.7 - 0.8)) as C1.
    pose proof (COS_bound (t * 3.1 - 0.3)) as C2.
    set (s1 := sin (t * 1.3 + 0.5)) in *. set (s2 := sin (t * 2.7 + 1.2)) in *.
    set (c1 := cos (t * 1.7 - 0.8)) in *. set (c2 := cos (t * 3.1 - 0.3)) in *.
    split; apply Rabs_le; split; nra.
  - simpl. pose proof (Rmax_l 0 (shake_intensity u)) as Hmax.
    split; apply Rabs_le; lra.
Qed.

(** The grain value lies within [[-1, 1]], whatever the seed. *)
Theorem grain_value_range (seed : float2) :
  -1 <= (random seed - 0.5) * 2.0 <= 1.
Proof.
  unfold random, frac.
  destruct (base_fp (sin (dot2 seed (mk2 12.9898 78.233)) * 43758.5453123))
    as [Hlo Hhi].
  lra.
Qed.

(** Screen blending keeps colors within [[0,1]]. *)
Theorem BlendScreen_unit (base blend : float3) :
  unit_color base -> unit_color blend -> unit_color (BlendScreen base blend).
Proof.
  intros (Br & Bg & Bb) (Lr & Lg & Lb).
  unfold unit_color, BlendScreen, rsub3, mul3. simpl.
  repeat split; nra.
Qed.

Lemma BlendScreen_unit_witness : unit_color (BlendScreen gray gray).
Proof.
  apply (BlendScreen_unit gray gray);
    unfold unit_color, gray; simpl; lra.
Defined.

(** ** Color grading keeps colors in range *)

Lemma pow_unit (x y : R) : 0 <= x <= 1 -> 0 <= y -> 0 <= pow x y <= 1.
Proof.
  intros Hx Hy. unfold pow. destruct (Rlt_dec 0 x) as [Hpos|_]; [|lra].
  unfold Rpower. split; [left; apply exp_pos|].
  rewrite <- exp_0.
  assert (Hln : ln x <= 0).
  { rewrite <- ln_1. destruct (Req_dec x 1) as [->|Hne]; [lra|].
    left. apply ln_increasing; lra. }
  destruct (Req_dec (y * ln x) 0) as [->|Hne]; [lra|].
  left. apply exp_increasing. nra.
Qed.

Lemma lerp_unit (a b w : R) :
  0 <= a <= 1 -> 0 <= b <= 1 -> 0 <= w <= 1 -> 0 <= lerp a b w <= 1.
Proof.
  intros Ha Hb Hw. unfold lerp.
  replace (a + w * (b - a)) with ((1 - w) * a + w * b) by ring.
  assert (0 <= (1 - w) * a) by (apply Rmult_le_pos; lra).
  assert (0 <= w * b) by (apply Rmult_le_pos; lra).
  assert (0 <= (1 - w) * (1 - a)) by (apply Rmult_le_pos; lra).
  assert (0 <= w * (1 - b)) by (apply Rmult_le_pos; lra).
  lra.
Qed.

Lemma blend_weight_unit (s a : R) : 0 <= s <= 1 -> 0 <= a <= 1 -> 0 <= s * a <= 1.
Proof.
  intros Hs Ha.
  assert (0 <= s * a) by (apply Rmult_le_pos; lra).
  assert (0 <= (1 - s) * a) by (apply Rmult_le_pos; lra).
  lra.
Qed.

(** For a positive contrast and teal and orange amounts within [[0,1]],
    the color grader maps a color with channels in [[0,1]] to a color with
    channels in [[0,1]]. *)
Theorem color_grade_unit (u : uniforms) (c : float3) :
  0 < contrast u ->
  0 <= teal_amount u <= 1 -> 0 <= orange_amount u <= 1 ->
  unit_color c -> unit_color (color_grade u c).
Proof.
  intros Hc Ht Ho (Hr & Hg & Hb). unfold color_grade.
  set (g := pow3 c (mk3 (contrast u) (contrast u) (contrast u))).
  assert (Hgu : unit_color g)
    by (unfold g, pow3, unit_color; simpl; repeat split;
        apply pow_unit; first [assumption | lra]).
  destruct Hgu as (Gr & Gg & Gb).
  set (wt := smoothstep 0.5 1.0 (dot3 g luma_weights) * teal_amount u).
  set (wo := smoothstep 0.4 0.0 (dot3 g luma_weights) * orange_amount u).
  assert (Hwt : 0 <= wt <= 1)
    by (apply blend_weight_unit; [apply smoothstep_unit | assumption]).
  assert (Hwo : 0 <= wo <= 1)
    by (apply blend_weight_unit; [apply smoothstep_unit | assumption]).
  unfold unit_color, lerp3, teal_color, orange_color. simpl.
  repeat split; apply lerp_unit; try assumption; try lra;
    apply lerp_unit; try assumption; lra.
Qed.

Lemma color_grade_unit_witness :
  unit_color (color_grade default_uniforms gray).
Proof.
  apply (color_grade_unit default_uniforms gray).
  - simpl. lra.
  - simpl. lra.
  - simpl. lra.
  - unfold unit_color, gray. simpl. lra.
Defined.

(** ** The clock *)

Lemma frac_shift (t : R) (k : Z) : frac (t + IZR k) = frac t.
Proof.
  unfold frac.
  destruct (base_fp t) as [Hlo Hhi].
  destruct (Int_part_frac_part_spec (t + IZR k) (Int_part t + k) (frac_part t))
    as [_ Hf].
  - lra.
  - rewrite plus_IZR. pose proof (Rplus_Int_part_frac_part t). lra.
  - symmetry. exact Hf.
Qed.

Lemma add_grain_ext (u u' : uniforms) (shaken : float2) (c : float3) :
  frac (elapsed_time u') = frac (elapsed_time u) ->
  grain_intensity u' = grain_intensity u ->
  add_grain u' shaken c = add_grain u shaken c.
Proof. intros Hf Hg. unfold add_grain. now rewrite Hf, Hg. Qed.

(** With the camera shake off, the shader reads the clock only through its
    fractional part: moving [elapsed_time] by a whole number of time units
    changes nothing of the evaluation. *)
Theorem elapsed_time_period fuel image u uv (k : Z) :
  shake_intensity u <= 0 ->
  mainImage fuel image (set_elapsed_time u (elapsed_time u + IZR k)) uv =
  mainImage fuel image u uv.
Proof.
  intros Hoff. unfold mainImage, film_look.
  set (u' := set_elapsed_time u (elapsed_time u + IZR k)).
  assert (Hs : shaken_uv u' uv = shaken_uv u uv)
    by (rewrite !shaken_uv_off by (simpl; lra); reflexivity).
  rewrite Hs.
  change (uv_size u') with (uv_size u).
  destruct (rdiv2 1.0 (uv_size u)) as [ps| |]; simpl bind; try reflexivity.
  change (glow_scan fuel textureSampler image u' (shaken_uv u uv) ps)
    with (glow_scan fuel textureSampler image u (shaken_uv u uv) ps).
  destruct (glow_scan fuel textureSampler image u (shaken_uv u uv) ps)
    as [st| |]; simpl bind; try reflexivity.
  rewrite !normalize_total. simpl bind.
  rewrite (add_grain_ext u u')
    by (try reflexivity; unfold u'; simpl; apply frac_shift).
  reflexivity.
Qed.

Lemma elapsed_time_period_witness :
  let u := set_shake_intensity default_uniforms 0 in
  mainImage 10 opaque_white (set_elapsed_time u (elapsed_time u + IZR 3)) center
  = mainImage 10 opaque_white u center.
Proof.
  apply (elapsed_time_period 10 opaque_white
           (set_shake_intensity default_uniforms 0) center 3).
  simpl. lra.
Defined.

(** ** What an effect accumulates is its own business *)

Lemma sum_contributions_nil e s image u shaken pixel_size :
  sum_contributions e s image u shaken pixel_size [] = zero3.
Proof. reflexivity. Qed.

Lemma square_negative (r : Z) : (r < 0)%Z -> square r = [].
Proof. intros Hr. unfold square. now rewrite offsets_negative. Qed.

(** The accumulator and the counter of an effect after a finished scan, out
    of the effect's own intensity, threshold and radius alone. *)
Lemma scan_result_accum_any s image u shaken pixel_size e :
  loop_in_range u ->
  accum e (scan_result s image u shaken pixel_size) =
  if gtb (intensity u e) 0.0
  then sum_contributions e s image u shaken pixel_size (square (radius u e))
  else zero3.
Proof.
  intros Hm. unfold gtb.
  destruct (Rlt_dec 0.0 (intensity u e)) as [Hon|Hoff].
  - destruct (Z_lt_le_dec (radius u e) 0) as [Hneg|Hpos].
    + rewrite square_negative by assumption.
      now apply scan_result_radius_off.
    + apply scan_result_accum_on; [assumption | lra | assumption].
  - unfold scan_result. rewrite scan_list_accum, gated_fold_off.
    + destruct e; reflexivity.
    + intros x y _ _. apply gate_intensity_off. lra.
Qed.

Lemma scan_result_count_any s image u shaken pixel_size e :
  loop_in_range u ->
  sample_count e (scan_result s image u shaken pixel_size) =
  if gtb (intensity u e) 0.0
  then INR (length (square (radius u e)))
  else 0.
Proof.
  intros Hm. unfold gtb.
  destruct (Rlt_dec 0.0 (intensity u e)) as [Hon|Hoff].
  - destruct (Z_lt_le_dec (radius u e) 0) as [Hneg|Hpos].
    + rewrite square_negative by assumption.
      now apply scan_result_radius_off.
    + rewrite square_length by assumption.
      apply scan_result_count_on; [assumption | lra | assumption].
  - unfold scan_result. rewrite scan_list_count, gated_fold_off.
    + destruct e; simpl; lra.
    + intros x y _ _. apply gate_intensity_off. lra.
Qed.

Lemma glow_state_eq (st st' : glow_state) :
  (forall e, accum e st = accum e st') ->
  (forall e, sample_count e st = sample_count e st') ->
  st = st'.
Proof.
  intros Ha Hc. destruct st, st'.
  pose proof (Ha Bloom) as A1. pose proof (Ha Halation) as A2.
  pose proof (Ha SecondaryGlow) as A3.
  pose proof (Hc Bloom) as C1. pose proof (Hc Halation) as C2.
  pose proof (Hc SecondaryGlow) as C3.
  simpl in *. congruence.
Qed.

Lemma scan_result_inert s image u shaken pixel_size e t r :
  intensity u e <= 0 ->
  loop_in_range u -> loop_in_range (set_threshold_radius e u t r) ->
  scan_result s image (set_threshold_radius e u t r) shaken pixel_size =
  scan_result s image u shaken pixel_size.
Proof.
  intros Hoff Hm Hm'. apply glow_state_eq; intros e'.
  - rewrite !scan_result_accum_any by assumption.
    destruct e, e'; simpl intensity in *;
      try reflexivity; now rewrite !gtb_false by lra.
  - rewrite !scan_result_count_any by assumption.
    destruct e, e'; simpl intensity in *;
      try reflexivity; now rewrite !gtb_false by lra.
Qed.

(** The threshold and the radius of an effect whose intensity is not
    positive are inert: whatever they are set to, the pixel is the same
    (as long as the loop bound stays in range and the fuel suffices). *)
Theorem disabled_effect_settings_inert fuel image u uv e t r :
  intensity u e <= 0 ->
  loop_in_range u -> enough_fuel fuel u ->
  loop_in_range (set_threshold_radius e u t r) ->
  enough_fuel fuel (set_threshold_radius e u t r) ->
  frame_size_ok u ->
  mainImage fuel image (set_threshold_radius e u t r) uv =
  mainImage fuel image u uv.
Proof.
  intros Hoff Hm Hfuel Hm' Hfuel' Hsize.
  rewrite (mainImage_run fuel image u) by assumption.
  rewrite mainImage_run; try assumption;
    [|destruct e; exact Hsize].
  f_equal. unfold shade, final_color_of.
  replace (shaken_uv (set_threshold_radius e u t r) uv) with (shaken_uv u uv)
    by (destruct e; reflexivity).
  replace (reciprocal_size (set_threshold_radius e u t r))
    with (reciprocal_size u) by (destruct e; reflexivity).
  rewrite scan_result_inert by assumption.
  destruct e; reflexivity.
Qed.

Lemma disabled_effect_settings_inert_witness :
  mainImage 20 opaque_white (set_threshold_radius Bloom bloom_off 0.3 5) center =
  mainImage 20 opaque_white bloom_off center.
Proof.
  apply (disabled_effect_settings_inert 20 opaque_white bloom_off center
           Bloom 0.3 5).
  - simpl. lra.
  - unfold loop_in_range. vm_compute. split; reflexivity.
  - unfold enough_fuel. vm_compute. lia.
  - unfold loop_in_range. vm_compute. split; reflexivity.
  - unfold enough_fuel. vm_compute. lia.
  - unfold frame_size_ok. simpl. split; lra.
Defined.

(** ** Samples beyond the border *)

Lemma Sample_in_frameb image uv :
  Sample textureSampler image uv =
  if in_frameb uv then image (vx uv) (vy uv) else transparent_black.
Proof.
  unfold Sample, textureSampler, address, in_frameb. simpl.
  destruct (Rle_dec 0 (vx uv)); [|reflexivity].
  destruct (Rle_dec (vx uv) 1); [|reflexivity].
  destruct (Rle_dec 0 (vy uv)); [|reflexivity].
  destruct (Rle_dec (vy uv) 1); reflexivity.
Qed.

Lemma contribution_of_black e s image u shaken pixel_size x y :
  rgb (Sample s image (sample_uv shaken pixel_size x y)) = zero3 ->
  contribution e s image u shaken pixel_size x y = zero3.
Proof.
  intros H. unfold contribution. rewrite H.
  destruct e; unfold scale3, tinted, mul3, zero3, halation_tint, sg_tint;
    simpl; f_equal; lra.
Qed.

Lemma sum_of_some {B : Type} (keep : B -> bool) (k : float3) (l : list B) :
  forall acc,
    fold_left (fun a b => add3 a (if keep b then k else zero3)) l acc =
    add3 acc (scale3 k (INR (length (filter keep l)))).
Proof.
  induction l as [|b l IH]; intros acc.
  - simpl. destruct acc as [r g bl]. unfold add3, scale3. simpl.
    f_equal; lra.
  - simpl fold_left. rewrite IH. simpl filter.
    destruct (keep b).
    + change (length (b :: filter keep l)) with (S (length (filter keep l))).
      rewrite S_INR. destruct acc as [r g bl]. unfold add3, scale3. simpl.
      f_equal; lra.
    + destruct acc as [r g bl]. unfold add3, scale3, zero3. simpl.
      f_equal; lra.
Qed.

(** On an image of one color, an effect that is on counts every offset of
    its square but accumulates only those whose sample lies within the
    frame: the border sampler reads black beyond it.  With [k] of the
    [(2r+1)^2] samples in the frame, the mean is [k / (2r+1)^2] times the
    mean of the interior. *)
Theorem glow_fades_at_the_border fuel u shaken pixel_size e c a :
  loop_in_range u -> enough_fuel fuel u ->
  0 < intensity u e -> (0 <= radius u e)%Z ->
  let r := radius u e in
  let interior :=
    scale3 (tinted e c) (smoothstep (threshold u e) 1 (luma_of c)) in
  let k := INR (length (samples_in_frame shaken pixel_size (square r))) in
  exists st,
    glow_scan fuel textureSampler (flat_image c a) u shaken pixel_size = Ok st /\
    sample_count e st = IZR ((2 * r + 1) ^ 2) /\
    accum e st = scale3 interior k /\
    normalize (accum e st) (sample_count e st) =
      Ok (scale3 interior (k / IZR ((2 * r + 1) ^ 2))) /\
    0 <= k <= IZR ((2 * r + 1) ^ 2).
Proof.
  intros Hm Hfuel Hi Hr r interior k.
  exists (scan_result textureSampler (flat_image c a) u shaken pixel_size).
  split; [now apply glow_scan_ok|].
  assert (Hacc : accum e (scan_result textureSampler (flat_image c a) u
                            shaken pixel_size) = scale3 interior k).
  { rewrite scan_result_accum_on by assumption. unfold sum_contributions.
    rewrite (sum_ext _
      (fun xy => if in_frameb (sample_uv shaken pixel_size (fst xy) (snd xy))
                 then interior else zero3)).
    - rewrite sum_of_some. fold r. unfold k, samples_in_frame.
      destruct interior as [ir ig ib]. unfold add3, scale3, zero3. simpl.
      f_equal; lra.
    - intros [x y] _. simpl fst. simpl snd.
      destruct (in_frameb (sample_uv shaken pixel_size x y)) eqn:Hin.
      + apply contribution_uniform.
        rewrite Sample_in_frameb, Hin. reflexivity.
      + apply contribution_of_black.
        rewrite Sample_in_frameb, Hin. reflexivity. }
  rewrite Hacc, scan_result_count_on by assumption. fold r.
  pose proof (square_count_positive r Hr) as Hn.
  split; [reflexivity|]. split; [reflexivity|]. split.
  - rewrite normalize_positive_count by assumption. f_equal.
    set (n := IZR ((2 * r + 1) ^ 2)) in *.
    destruct interior as [ir ig ib]. unfold quotient3, scale3. simpl.
    f_equal; field; lra.
  - split; [apply pos_INR|].
    rewrite <- square_length by assumption. apply le_INR.
    unfold k, samples_in_frame. apply filter_length_le.
Qed.

Lemma glow_fades_at_the_border_witness :
  let u := default_uniforms in
  let r := radius u Bloom in
  let interior :=
    scale3 (tinted Bloom (mk3 1 1 1)) (smoothstep (threshold u Bloom) 1 (luma_of (mk3 1 1 1))) in
  let k := INR (length (samples_in_frame (mk2 0 0) (reciprocal_size u) (square r))) in
  exists st,
    glow_scan 10 textureSampler (flat_image (mk3 1 1 1) 1) u (mk2 0 0)
      (reciprocal_size u) = Ok st /\
    sample_count Bloom st = IZR ((2 * r + 1) ^ 2) /\
    accum Bloom st = scale3 interior k /\
    normalize (accum Bloom st) (sample_count Bloom st) =
      Ok (scale3 interior (k / IZR ((2 * r + 1) ^ 2))) /\
    0 <= k <= IZR ((2 * r + 1) ^ 2).
Proof.
  apply (glow_fades_at_the_border 10 default_uniforms (mk2 0 0)
           (reciprocal_size default_uniforms) Bloom (mk3 1 1 1) 1).
  - unfold loop_in_range. vm_compute. split; reflexivity.
  - unfold enough_fuel. vm_compute. lia.
  - simpl. lra.
  - simpl. lia.
Defined.

(** ** The filter: wiring, clock and settings *)

Lemma step_wiring (filter : Host.film_look_data) (ev : Host.event) :
  wiring (Host.step filter ev) = wiring filter.
Proof. destruct ev; reflexivity. Qed.

Lemma run_wiring (events : list Host.event) : forall filter,
  wiring (Host.run events filter) = wiring filter.
Proof.
  unfold Host.run.
  induction events as [|ev events IH]; intros filter; simpl; [reflexivity|].
  now rewrite IH, step_wiring.
Qed.

Lemma run_clock (events : list Host.event) : forall filter,
  Host.total_elapsed_time (Host.run events filter) =
  Host.total_elapsed_time filter + Host.ticked events.
Proof.
  unfold Host.run.
  induction events as [|ev events IH]; intros filter; simpl.
  - lra.
  - rewrite IH. destruct ev; simpl; lra.
Qed.


(** When the effect does not compile, every later render skips the filter,
    whatever updates and ticks came before and whatever the target is: no
    setter is called on the parameter pointers. *)
Theorem failed_compile_skips (events : list Host.event)
  (target : option (Z * Z)) (begins : bool) :
  Host.film_look_render (Host.run events (Host.film_look_create false))
    target begins = Host.Skipped.
Proof.
  pose proof (run_wiring events (Host.film_look_create false)) as Hw.
  destruct (Host.run events (Host.film_look_create false)).
  unfold wiring in Hw. simpl in Hw. injection Hw as -> _.
  reflexivity.
Qed.

Lemma ticked_app (events more : list Host.event) :
  Host.ticked (events ++ more) = Host.ticked events + Host.ticked more.
Proof.
  induction events as [|ev events IH]; simpl; [lra|].
  destruct ev; rewrite IH; lra.
Qed.

Lemma ticked_nonneg (events : list Host.event) :
  ticks_nonneg events -> 0 <= Host.ticked events.
Proof.
  unfold ticks_nonneg.
  induction events as [|ev events IH]; intros Hpos; simpl; [lra|].
  assert (Hrest : 0 <= Host.ticked events)
    by (apply IH; intros s Hs; apply Hpos; now right).
  destruct ev as [settings|seconds]; [exact Hrest|].
  assert (0 <= seconds) by (apply Hpos; now left). lra.
Qed.

Lemma ticked_only_updates (events : list Host.event) :
  only_updates events -> Host.ticked events = 0.
Proof.
  unfold only_updates.
  induction events as [|ev events IH]; intros Hno; simpl; [reflexivity|].
  destruct ev as [settings|seconds].
  - apply IH. intros s Hs. apply (Hno s). now right.
  - exfalso. apply (Hno seconds). now left.
Qed.

(** The clock the shader is given starts at 0 when the filter is created
    and, the ticks being non-negative, never runs backwards: after further
    events it is at least what it was, and it is what it was when those
    events are updates of the settings only. *)
Theorem clock_never_runs_back (events more : list Host.event)
  (compiles : bool) (width height : Z) :
  ticks_nonneg events -> ticks_nonneg more ->
  let clock evs :=
    elapsed_time
      (Host.uniforms_of (Host.run evs (Host.film_look_create compiles))
         width height) in
  clock [] = 0 /\
  0 <= clock events <= clock (events ++ more) /\
  (only_updates more -> clock (events ++ more) = clock events).
Proof.
  intros Hev Hmore clock.
  assert (Hclock : forall evs, clock evs = Host.ticked evs).
  { intros evs. unfold clock. simpl. rewrite run_clock.
    destruct compiles; simpl; lra. }
  rewrite !Hclock, ticked_app.
  pose proof (ticked_nonneg events Hev) as H1.
  pose proof (ticked_nonneg more Hmore) as H2.
  split; [reflexivity|]. split; [lra|].
  intros Hno. rewrite (ticked_only_updates more Hno). lra.
Qed.

Lemma clock_never_runs_back_witness :
  let clock evs :=
    elapsed_time
      (Host.uniforms_of (Host.run evs (Host.film_look_create true))
         1920 1080) in
  let events :=
    [Host.Update (Host.film_look_defaults Host.empty_data); Host.Tick 0.5] in
  let more := [Host.Tick 0.25; Host.Update Host.empty_data] in
  clock [] = 0 /\
  0 <= clock events <= clock (events ++ more) /\
  (only_updates more -> clock (events ++ more) = clock events).
Proof.
  apply (clock_never_runs_back
           [Host.Update (Host.film_look_defaults Host.empty_data);
            Host.Tick 0.5]
           [Host.Tick 0.25; Host.Update Host.empty_data]
           true 1920 1080).
  - intros s [H|[H|[]]]; [discriminate | injection H as <-; lra].
  - intros s [H|[H|[]]]; [injection H as <-; lra | discriminate].
Defined.

(** On settings the user has not touched, [film_look_update] after
    [film_look_defaults] loads the documented defaults: every name
    [film_look_update] reads is a name [film_look_defaults] has set, so no
    setting falls back to 0. *)
Theorem defaults_reach_the_filter (filter : Host.film_look_data)
  (settings : Host.obs_data) (width height : Z) :
  untouched settings ->
  Host.uniforms_of
    (Host.film_look_update filter (Host.film_look_defaults settings))
    width height =
  set_uv_size
    (set_elapsed_time default_uniforms (Host.total_elapsed_time filter))
    (mk2 (IZR width) (IZR height)).
Proof.
  intros Hu.
  unfold Host.uniforms_of, Host.film_look_update, Host.obs_data_get_double,
    Host.obs_data_get_int, Host.get_item.
  simpl. rewrite !Hu. reflexivity.
Qed.

Lemma defaults_reach_the_filter_witness :
  Host.uniforms_of
    (Host.film_look_update (Host.film_look_create true)
       (Host.film_look_defaults Host.empty_data))
    1920 1080 =
  set_uv_size
    (set_elapsed_time default_uniforms
       (Host.total_elapsed_time (Host.film_look_create true)))
    (mk2 (IZR 1920) (IZR 1080)).
Proof.
  apply (defaults_reach_the_filter (Host.film_look_create true)
           Host.empty_data 1920 1080).
  intros name. reflexivity.
Defined.

(** ** Settings within the sliders *)

Lemma within_float_slider settings name lo hi step :
  Host.within_sliders settings ->
  In (Host.FloatSlider name lo hi step) Host.film_look_properties ->
  lo <= Host.obs_data_get_double settings name <= hi.
Proof.
  intros Hw Hin. destruct (Hw _ Hin) as [n [Hget Hadm]].
  simpl in Hget. unfold Host.obs_data_get_double. rewrite Hget.
  destruct n; simpl in Hadm; [contradiction | exact Hadm].
Qed.

Lemma within_int_slider settings name lo hi step :
  Host.within_sliders settings ->
  In (Host.IntSlider name lo hi step) Host.film_look_properties ->
  (lo <= Host.obs_data_get_int settings name <= hi)%Z.
Proof.
  intros Hw Hin. destruct (Hw _ Hin) as [n [Hget Hadm]].
  simpl in Hget. unfold Host.obs_data_get_int. rewrite Hget.
  destruct n; simpl in Hadm; [exact Hadm | contradiction].
Qed.

(** For settings every slider of [film_look_properties] admits, on a
    target of positive width and height, the uniforms [film_look_update]
    and [film_look_render] give the shader keep the scan within 8 offsets
    of the pixel in each direction: the loop bound is in range, 18 units
    of fuel suffice, [1.0 / uv_size] is defined and the shader returns a
    pixel, for every image and every pixel coordinate. *)
Theorem slider_settings_render (filter : Host.film_look_data)
  (settings : Host.obs_data) (width height : Z) :
  Host.within_sliders settings ->
  (0 < width)%Z -> (0 < height)%Z ->
  let u := Host.uniforms_of (Host.film_look_update filter settings)
             width height in
  (2 <= max_radius_for_loop u <= 8)%Z /\
  loop_in_range u /\ enough_fuel 18 u /\ frame_size_ok u /\
  forall image uv, exists out, mainImage 18 image u uv = Ok out.
Proof.
  intros Hw Hwidth Hheight u.
  assert (Hb : (1 <= Host.obs_data_get_int settings "bloom_radius" <= 5)%Z)
    by (apply (within_int_slider settings _ 1 5 1 Hw); simpl; tauto).
  assert (Hh : (2 <= Host.obs_data_get_int settings "halation_radius" <= 8)%Z)
    by (apply (within_int_slider settings _ 2 8 1 Hw); simpl; tauto).
  assert (Hs : (1 <= Host.obs_data_get_int settings "secondary_glow_radius"
                <= 7)%Z)
    by (apply (within_int_slider settings _ 1 7 1 Hw); simpl; tauto).
  assert (Hmax : (2 <= max_radius_for_loop u <= 8)%Z).
  { unfold u, max_radius_for_loop, imax. simpl.
    rewrite !wrap_in_range by (unfold int_min, int_max; lia). lia. }
  assert (Hm : loop_in_range u)
    by (unfold loop_in_range, int_min, int_max; lia).
  assert (Hfuel : enough_fuel 18 u) by (unfold enough_fuel; lia).
  assert (Hsize : frame_size_ok u).
  { unfold frame_size_ok, u. simpl.
    split; apply not_0_IZR; lia. }
  split; [exact Hmax|]. split; [exact Hm|]. split; [exact Hfuel|].
  split; [exact Hsize|].
  intros image uv. eexists. now apply mainImage_run.
Qed.

Lemma defaults_within_sliders :
  Host.within_sliders (Host.film_look_defaults Host.empty_data).
Proof.
  intros p Hin. simpl in Hin.
  repeat (destruct Hin as [<-|Hin];
          [eexists; split; [reflexivity | simpl; first [lra | lia]]|]).
  contradiction.
Qed.

Lemma slider_settings_render_witness :
  let u := Host.uniforms_of
             (Host.film_look_update (Host.film_look_create true)
                (Host.film_look_defaults Host.empty_data))
             1920 1080 in
  (2 <= max_radius_for_loop u <= 8)%Z /\
  loop_in_range u /\ enough_fuel 18 u /\ frame_size_ok u /\
  forall image uv, exists out, mainImage 18 image u uv = Ok out.
Proof.
  apply (slider_settings_render (Host.film_look_create true)
           (Host.film_look_defaults Host.empty_data) 1920 1080).
  - exact defaults_within_sliders.
  - lia.
  - lia.
Defined.

(** ** The length of the scan *)

Lemma for_loop_short {S : Type} (body : Z -> S -> result S) (hi : Z) :
  (forall i s, body i s <> DivByZero) ->
  forall (fuel n : nat) (lo : Z) (s : S),
    n = Z.to_nat (hi - lo + 1) ->
    (int_min <= lo)%Z -> (hi < int_max)%Z -> (fuel <= n)%nat ->
    for_loop fuel lo hi body s = OutOfFuel.
Proof.
  intros Hbody. induction fuel as [|fuel IH]; intros n lo s Hn Hlo Hhi Hfuel;
    simpl; [reflexivity|].
  destruct (Z.leb_spec lo hi) as [Hle|Hlt]; [|lia].
  destruct (body lo s) as [s'| |] eqn:Hb; simpl.
  - rewrite incr_in_range by lia.
    apply (IH (n - 1)%nat); lia.
  - now apply Hbody in Hb.
  - reflexivity.
Qed.

Lemma for_loop_step {S : Type} (body : Z -> S -> result S) fuel i hi s :
  for_loop (Datatypes.S fuel) i hi body s =
  if (i <=? hi)%Z
  then s' <- body i s ;; for_loop fuel (incr i) hi body s'
  else Ok s.
Proof. reflexivity. Qed.

(** With too little fuel the scan does not end, whatever the
    intensities. *)
Lemma glow_scan_runs_out fuel s image u shaken pixel_size :
  loop_in_range u -> ~ enough_fuel fuel u ->
  glow_scan fuel s image u shaken pixel_size = OutOfFuel.
Proof.
  intros Hm Hshort. unfold loop_in_range, enough_fuel, glow_scan in *.
  set (m := max_radius_for_loop u) in *.
  assert (Hneg : ineg m = (- m)%Z) by (apply ineg_in_range; lia).
  rewrite Hneg.
  destruct fuel as [|fuel]; [reflexivity|].
  assert (H0 : (0 <= m)%Z) by lia.
  assert (Hinner : forall x st,
            for_loop (S fuel) (- m) m
              (fun y st' => Ok (scan_body s image u shaken pixel_size x y st'))
              st = OutOfFuel).
  { intros x st.
    apply (for_loop_short _ m) with (n := Z.to_nat (m - - m + 1));
      try (unfold int_min, int_max in *; lia).
    intros i s0. discriminate. }
  rewrite for_loop_step.
  destruct (Z.leb_spec (- m) m) as [_|Hlt]; [|lia].
  now rewrite Hinner.
Qed.

(** The scan runs over the largest of the three radii whether or not an
    effect is on: with the loop bound [R] in range it ends exactly when
    the fuel exceeds the [2R + 1] iterations of a loop, whatever the
    intensities are. *)
Theorem scan_length_ignores_intensities fuel s image u shaken pixel_size :
  loop_in_range u ->
  (enough_fuel fuel u ->
   glow_scan fuel s image u shaken pixel_size =
   Ok (scan_result s image u shaken pixel_size)) /\
  (~ enough_fuel fuel u ->
   glow_scan fuel s image u shaken pixel_size = OutOfFuel).
Proof.
  intros Hm. split.
  - intros Hfuel. now apply glow_scan_ok.
  - intros Hshort. now apply glow_scan_runs_out.
Qed.

Lemma scan_length_ignores_intensities_witness :
  (enough_fuel 9 (noop_uniforms 0) ->
   glow_scan 9 textureSampler opaque_white (noop_uniforms 0) center
     (reciprocal_size (noop_uniforms 0)) =
   Ok (scan_result textureSampler opaque_white (noop_uniforms 0) center
         (reciprocal_size (noop_uniforms 0)))) /\
  (~ enough_fuel 9 (noop_uniforms 0) ->
   glow_scan 9 textureSampler opaque_white (noop_uniforms 0) center
     (reciprocal_size (noop_uniforms 0)) = OutOfFuel).
Proof.
  apply (scan_length_ignores_intensities 9 textureSampler opaque_white
           (noop_uniforms 0) center (reciprocal_size (noop_uniforms 0))).
  unfold loop_in_range. vm_compute. split; reflexivity.
Defined.

(** ** Screen blending *)

Lemma BlendScreen_comm_assoc (a b c : float3) :
  BlendScreen (BlendScreen a b) c = BlendScreen (BlendScreen a c) b.
Proof.
  unfold BlendScreen, rsub3, mul3. simpl. f_equal; ring.
Qed.

(** The halation step and the secondary-glow step of the compositor
    commute: screening with the secondary glow after the halation gives
    the color that screening with the halation after the secondary glow
    gives. *)
Theorem screen_steps_commute (u : uniforms) (halation glow c : float3) :
  screen_secondary_glow u glow (screen_halation u halation c) =
  screen_halation u halation (screen_secondary_glow u glow c).
Proof.
  unfold screen_secondary_glow, screen_halation.
  destruct (gtb (secondary_glow_intensity u) 0.0),
           (gtb (halation_intensity u) 0.0); try reflexivity.
  apply BlendScreen_comm_assoc.
Qed.

(** ** A negative radius, at every loop bound *)

Lemma wrap_bounds (z : Z) : (int_min <= wrap z <= int_max)%Z.
Proof.
  unfold wrap, int_min, int_max.
  pose proof (Z.mod_pos_bound (z + 2 ^ 31) (2 ^ 32)) as H. lia.
Qed.

(** A loop whose bound is [int_max] or more never ends: its counter wraps
    around before it can exceed the bound. *)
Lemma for_loop_never_ends {S : Type} (body : Z -> S -> result S) (hi : Z) :
  (int_max <= hi)%Z ->
  forall (fuel : nat) (i : Z) (s st : S),
    (int_min <= i <= int_max)%Z ->
    for_loop fuel i hi body s <> Ok st.
Proof.
  intros Hhi. induction fuel as [|fuel IH]; intros i s st Hi; simpl;
    [discriminate|].
  destruct (Z.leb_spec i hi) as [_|Hlt]; [|lia].
  destruct (body i s) as [s'| |]; simpl; try discriminate.
  apply IH. apply wrap_bounds.
Qed.

(** A scan that ends, the loop bound being above [int_min], had its loop
    bound in range and ends in [scan_result]. *)
Lemma glow_scan_finished fuel s image u shaken pixel_size st :
  (int_min < max_radius_for_loop u)%Z ->
  glow_scan fuel s image u shaken pixel_size = Ok st ->
  loop_in_range u /\ st = scan_result s image u shaken pixel_size.
Proof.
  intros Hlow Hrun.
  destruct (Z_lt_le_dec (max_radius_for_loop u) int_max) as [Hup|Hup].
  - assert (Hm : loop_in_range u) by (unfold loop_in_range; lia).
    split; [exact Hm|].
    destruct (lt_dec (Z.to_nat (2 * max_radius_for_loop u + 1)) fuel)
      as [Hfuel|Hshort].
    + rewrite glow_scan_ok in Hrun by assumption. now injection Hrun.
    + rewrite glow_scan_runs_out in Hrun by assumption. discriminate.
  - exfalso. unfold glow_scan in Hrun.
    apply (for_loop_never_ends _ _ Hup) in Hrun; [exact Hrun|].
    apply wrap_bounds.
Qed.

(** C9 (as amended): for an effect whose radius is negative, the three
    radii not being all [INT_MIN] (the loop bound is above [INT_MIN]), the
    cutoff check [abs(offset) <= radius] fails at every scanned offset: a
    scan that ends leaves the effect's counter at 0 and its accumulator at
    zero, the normalisation does not divide and returns zero, and the
    effect's step of the compositor, given that zero mean, leaves the color
    as it is.  The evaluation returns a pixel when the loop bound is also
    below [INT_MAX], the fuel suffices and [uv_size] has no zero
    component. *)
Theorem C9_negative_radius (u : uniforms) (e : effect) :
  (radius u e < 0)%Z -> (int_min < max_radius_for_loop u)%Z ->
  (forall fuel s image shaken pixel_size st,
     glow_scan fuel s image u shaken pixel_size = Ok st ->
     sample_count e st = 0 /\
     accum e st = zero3 /\
     normalize (accum e st) (sample_count e st) = Ok zero3) /\
  (forall c, composite e u zero3 c = c) /\
  (forall fuel image uv,
     (max_radius_for_loop u < int_max)%Z -> enough_fuel fuel u ->
     frame_size_ok u ->
     exists out, mainImage fuel image u uv = Ok out).
Proof.
  intros Hr Hlow. split; [|split].
  - intros fuel s image shaken pixel_size st Hrun.
    destruct (glow_scan_finished _ _ _ _ _ _ _ Hlow Hrun) as [Hm ->].
    destruct (scan_result_radius_off s image u shaken pixel_size e Hm Hr)
      as [Hc Ha].
    split; [exact Hc|]. split; [exact Ha|].
    rewrite Ha. now apply normalize_zero_count.
  - intros c. apply composite_zero_mean.
  - intros fuel image uv Hup Hfuel Hsize. eexists.
    apply mainImage_run; try assumption.
    unfold loop_in_range. lia.
Qed.

Lemma C9_negative_radius_witness :
  (forall fuel s image shaken pixel_size st,
     glow_scan fuel s image (bloom_only (-1) (mk2 4 4)) shaken pixel_size
       = Ok st ->
     sample_count Bloom st = 0 /\
     accum Bloom st = zero3 /\
     normalize (accum Bloom st) (sample_count Bloom st) = Ok zero3) /\
  (forall c, composite Bloom (bloom_only (-1) (mk2 4 4)) zero3 c = c) /\
  (forall fuel image uv,
     (max_radius_for_loop (bloom_only (-1) (mk2 4 4)) < int_max)%Z ->
     enough_fuel fuel (bloom_only (-1) (mk2 4 4)) ->
     frame_size_ok (bloom_only (-1) (mk2 4 4)) ->
     exists out, mainImage fuel image (bloom_only (-1) (mk2 4 4)) uv = Ok out).
Proof.
  apply (C9_negative_radius (bloom_only (-1) (mk2 4 4)) Bloom).
  - simpl. lia.
  - vm_compute. reflexivity.
Defined.

Lemma bind_Ok {A B : Type} (v : A) (k : A -> result B) : bind (Ok v) k = k v.
Proof. reflexivity. Qed.

(** With all three radii [int_min] the loops start at [-int_min], which
    wraps to [int_min], and run once, at the offset [(int_min, int_min)]. *)
Lemma glow_scan_all_int_min s image size shaken pixel_size :
  let u := bloom_all_radii int_min size in
  glow_scan 2 s image u shaken pixel_size =
  Ok (scan_body s image u shaken pixel_size int_min int_min glow_init).
Proof.
  intros u. unfold glow_scan.
  change (max_radius_for_loop u) with int_min.
  change (ineg int_min) with int_min.
  rewrite for_loop_step. change (int_min <=? int_min)%Z with true.
  rewrite for_loop_step. change (int_min <=? int_min)%Z with true.
  simpl bind. reflexivity.
Qed.

Lemma gate_all_int_min size :
  gate (bloom_all_radii int_min size) Bloom int_min int_min = true.
Proof. unfold gate. rewrite gtb_true by (simpl; lra). reflexivity. Qed.

Lemma gray_at_int_min :
  rgb (Sample textureSampler gray_band
         (sample_uv center (reciprocal_size (bloom_all_radii int_min vast_frame))
            int_min int_min)) = gray.
Proof.
  assert (Hx : 0.5 + IZR int_min * (1.0 / 8589934592) = 0.25)
    by (unfold int_min; lra).
  rewrite Sample_border_inside; try reflexivity;
    try (unfold sample_uv, reciprocal_size, center; simpl; rewrite Hx; lra).
  rewrite gray_band_inside; [reflexivity|].
  unfold sample_uv, reciprocal_size, center. simpl. rewrite Hx. lra.
Qed.

(** C9 fails as stated, and for a negative radius without a condition on
    the loop bound, at two inputs.  At radius 0, which is non-positive,
    bloom counts and accumulates the center sample and lifts a mid-gray
    pixel from 0.5 to 0.75.  With all three radii [INT_MIN], which is
    negative, [-INT_MIN] and [abs(INT_MIN)] wrap to [INT_MIN]: the scan runs
    once, at the offset [(INT_MIN, INT_MIN)], bloom passes its cutoff,
    counts that sample and lifts the mid-gray pixel from 0.5 to 0.75. *)
Lemma C9_cutoff_passes_at_zero_and_int_min :
  (let u := bloom_only 0 (mk2 4 4) in
   (radius u Bloom <= 0)%Z /\
   (exists st,
      glow_scan 2 textureSampler gray_band u center (reciprocal_size u) = Ok st /\
      sample_count Bloom st = 1 /\
      accum Bloom st = mk3 0.25 0.25 0.25 /\
      normalize (accum Bloom st) (sample_count Bloom st)
        = Ok (mk3 0.25 0.25 0.25)) /\
   color_grade u (rgb (Sample textureSampler gray_band center)) = gray /\
   mainImage 2 gray_band u center = Ok (mk4 (mk3 0.75 0.75 0.75) 1)) /\
  (let u := bloom_all_radii int_min vast_frame in
   (radius u Bloom < 0)%Z /\
   (exists st,
      glow_scan 2 textureSampler gray_band u center (reciprocal_size u) = Ok st /\
      sample_count Bloom st = 1 /\
      accum Bloom st = mk3 0.25 0.25 0.25 /\
      normalize (accum Bloom st) (sample_count Bloom st)
        = Ok (mk3 0.25 0.25 0.25)) /\
   color_grade u (rgb (Sample textureSampler gray_band center)) = gray /\
   mainImage 2 gray_band u center = Ok (mk4 (mk3 0.75 0.75 0.75) 1)).
Proof.
  split; [exact radius_zero_contributes|].
  intros u.
  set (st := scan_body textureSampler gray_band u center (reciprocal_size u)
               int_min int_min glow_init).
  assert (Hscan : glow_scan 2 textureSampler gray_band u center
                    (reciprocal_size u) = Ok st)
    by apply glow_scan_all_int_min.
  assert (Hcount : sample_count Bloom st = 1).
  { unfold st. rewrite scan_body_count.
    unfold u. rewrite gate_all_int_min. simpl. lra. }
  assert (Hacc : accum Bloom st = mk3 0.25 0.25 0.25).
  { unfold st. rewrite scan_body_accum.
    unfold u. rewrite gate_all_int_min.
    rewrite (contribution_uniform _ _ _ _ _ _ _ _ gray)
      by exact gray_at_int_min.
    change (threshold (bloom_all_radii int_min vast_frame) Bloom) with 0.
    rewrite gray_bloom_weighted. unfold add3. simpl. f_equal; lra. }
  assert (Hmean : mean_of (accum Bloom st) (sample_count Bloom st)
                  = mk3 0.25 0.25 0.25).
  { rewrite Hacc, Hcount. unfold mean_of. rewrite gtb_true by lra.
    simpl. f_equal; lra. }
  assert (Hgrade : color_grade u (rgb (Sample textureSampler gray_band center))
                   = gray).
  { rewrite gray_band_center. apply color_grade_identity;
      try reflexivity; unfold gray; simpl; lra. }
  split; [vm_compute; reflexivity|]. split; [|split].
  - exists st. split; [exact Hscan|]. split; [exact Hcount|].
    split; [exact Hacc|]. rewrite normalize_total. f_equal. exact Hmean.
  - exact Hgrade.
  - unfold mainImage, film_look.
    rewrite shaken_uv_off by (simpl; lra).
    rewrite rdiv2_ok by (unfold frame_size_ok, u; simpl; split; lra).
    rewrite bind_Ok. cbv beta. rewrite Hscan, bind_Ok. cbv beta.
    do 3 (rewrite normalize_total, bind_Ok; cbv beta).
    f_equal.
    rewrite add_grain_off by reflexivity.
    rewrite (composite_off SecondaryGlow u : forall m c, _ -> screen_secondary_glow u m c = c)
      by (simpl; lra).
    rewrite (composite_off Halation u : forall m c, _ -> screen_halation u m c = c)
      by (simpl; lra).
    rewrite Hgrade.
    unfold add_bloom. rewrite gtb_true by (simpl; lra).
    change (bloom_accum st) with (accum Bloom st).
    change (bloom_sample_count st) with (sample_count Bloom st).
    rewrite Hmean, gray_band_center.
    unfold clamp3, add3, scale3, gray. simpl.
    f_equal. f_equal; rewrite clamp_inside; lra.
Qed.
